(** * Xenia execution module: preparation, variable binding and teardown

    A shallow embedding of [src/cpu/exec_module.cc] (class [ExecModule]):
    [Prepare], [InjectGlobals], [Init] and [Uninit].  Guest memory is a byte
    map written with the host's store instructions; LLVM, the symbol database
    and the execution engine are collaborators whose answers are taken from an
    interface record, and every call made to them is logged in call order. *)

From Stdlib Require Import ZArith List String Bool Lia.

Local Open Scope string_scope.
Import ListNotations.
Local Open Scope list_scope.
Local Open Scope Z_scope.

(* ================================================================== *)
(** ** Guest memory and byte order *)

(** Guest memory as [xe_memory_addr(memory_, 0)] exposes it: one byte (a
    value in [0, 255]) at each offset from the base pointer. *)
Definition Memory := Z -> Z.

Definition store8 (mem : Memory) (p b : Z) : Memory :=
  fun q => if q =? p then b else mem q.

(** Byte [k] (0 is the least significant) of a machine word. *)
Definition byte_of (v k : Z) : Z := Z.land (Z.shiftr v (8 * k)) 255.

(** [*slot = v] for [uint32_t* slot = (uint32_t* )(mem + p)]: the host stores
    the low 32 bits of [v] in its own byte order. *)
Definition store_u32 (XE_CPU_BIGENDIAN : bool) (mem : Memory) (p v : Z) : Memory :=
  if XE_CPU_BIGENDIAN then
    store8 (store8 (store8 (store8 mem p (byte_of v 3))
                           (p + 1) (byte_of v 2))
                   (p + 2) (byte_of v 1))
           (p + 3) (byte_of v 0)
  else
    store8 (store8 (store8 (store8 mem p (byte_of v 0))
                           (p + 1) (byte_of v 1))
                   (p + 2) (byte_of v 2))
           (p + 3) (byte_of v 3).

(** Modelled from the spec: the byte-order macros of the common headers,
    which are not among the sources.  [XESWAP32] reverses the four bytes of a
    32-bit word; [XESWAP32BE] converts between host order and the guest's
    big-endian order, so it is the identity on a big-endian host. *)
Definition XESWAP32 (p : Z) : Z :=
  Z.lor (Z.lor (Z.lor (Z.shiftl (Z.land p 255) 24)
                      (Z.shiftl (Z.land p 65280) 8))
               (Z.land (Z.shiftr p 8) 65280))
        (Z.land (Z.shiftr p 24) 255).

Definition XESWAP32BE (XE_CPU_BIGENDIAN : bool) (p : Z) : Z :=
  if XE_CPU_BIGENDIAN then p else XESWAP32 p.

(** The 32-bit word the guest reads at [p]: most significant byte first. *)
Definition guest_load_u32 (mem : Memory) (p : Z) : Z :=
  Z.lor (Z.lor (Z.lor (Z.shiftl (mem p) 24)
                      (Z.shiftl (mem (p + 1)) 16))
               (Z.shiftl (mem (p + 2)) 8))
        (mem (p + 3)).

(** The four bytes of [v] in guest order, as an address-indexed view. *)
Definition guest_bytes_at (mem : Memory) (p v : Z) : Prop :=
  mem p = byte_of v 3 /\ mem (p + 1) = byte_of v 2 /\
  mem (p + 2) = byte_of v 1 /\ mem (p + 3) = byte_of v 0.

Definition uint32 (v : Z) : Z := v mod 2 ^ 32.

(** [static_cast<int>(x)] for a 64-bit signed [x]: the low 32 bits, read
    as a signed number. *)
Definition static_cast_int (x : Z) : Z := (x + 2 ^ 31) mod 2 ^ 32 - 2 ^ 31.

(** The value written for an export nobody implements. *)
Definition DEADBEEF : Z := 3735928559.

(* ================================================================== *)
(** ** Symbols and kernel exports *)

(** Modelled from the spec: [KernelExport] (export resolver header) and
    [VariableSymbol] (symbol database header), of which the source uses the
    fields below. *)
Inductive ExportType := Function_ | Variable_.

Record KernelExport := mkKernelExport {
  ke_name : string;
  ke_type : ExportType;
  is_implemented : bool;
  variable_ptr : Z
}.

Record VariableSymbol := mkVariableSymbol {
  address : Z;
  kernel_export : option KernelExport
}.

(* ================================================================== *)
(** ** The generated module, as far as this file sees it *)

Inductive Ty := VoidTy | Int8PtrTy | Int32Ty | Int64Ty.

Record Function := mkFunction {
  fn_name : string;
  fn_ret : Ty;
  fn_args : list Ty;
  isDeclaration : bool
}.

Record GlobalVariable := mkGlobalVariable {
  gv_name : string;
  gv_type : Ty;
  gv_isConstant : bool;
  gv_alignment : Z;
  gv_initializer : Z
}.

Record Module := mkModule {
  module_identifier : string;
  target_triple : string;
  global_list : list GlobalVariable;
  function_list : list Function
}.

(** [new Module(name, context)]. *)
Definition new_Module (name : string) : Module :=
  mkModule name "" [] [].

(** [Module::getFunction(name)]: the function of that name, or null. *)
Definition getFunction (m : Module) (name : string) : option Function :=
  find (fun f => String.eqb (fn_name f) name) (function_list m).

(** [Function::Create(ty, ExternalLinkage, name, module)]: a new declaration
    (no body) appended to the module's function list. *)
Definition Function_Create (ret : Ty) (args : list Ty) (name : string)
    (m : Module) : Module :=
  mkModule (module_identifier m) (target_triple m) (global_list m)
           (function_list m ++ [mkFunction name ret args true]).

Definition add_GlobalVariable (gv : GlobalVariable) (m : Module) : Module :=
  mkModule (module_identifier m) (target_triple m) (global_list m ++ [gv])
           (function_list m).

Definition setTargetTriple (triple : string) (m : Module) : Module :=
  mkModule (module_identifier m) triple (global_list m) (function_list m).

Record PassManagerBuilder := mkPassManagerBuilder {
  OptLevel : Z;
  SizeLevel : Z;
  Inliner : bool;
  Vectorize : bool;
  LoopVectorize : bool
}.

(** What [pm.add] and the two [populate...] calls put into the pass
    manager, in order. *)
Inductive Pass :=
| DataLayoutPass
| VerifierPass
| ModulePasses (pmb : PassManagerBuilder)
| LTOPasses (pmb : PassManagerBuilder) (Internalize RunInliner : bool).

(* ================================================================== *)
(** ** Calls to collaborators *)

(** One entry per call that leaves this file, with the answer the source
    goes on to test. *)
Inductive Event :=
| EvGetFile (path : string) (rc : Z)
| EvParseBitcodeFile (parsed : bool)
| EvAnalyze (rc : Z)
| EvSdbWrite (file_name : string) (rc : Z)
| EvNewModule (name : string)
| EvAddGlobalMapping (fn host_fn : string)
| EvLinkModules
| EvGenerate (rc : Z)
| EvRawFdOstream (file_name error_message : string)
| EvWriteBitcodeToFile (file_name : string)
| EvMaterializeAllPermanently (failed : bool)
| EvPassManagerRun (passes : list Pass)
| EvGetAllVariables (rc : Z)
| EvRunStaticConstructorsDestructors (isDtors : bool)
| EvRunFunction (f : option Function)
| EvGetPointerToFunction (f : Function).

(** The collaborators.  [World] is everything they own (files, the LLVM
    context, the symbol database, the engine's code cache); each call may
    change it.  [error_message] out-parameters are returned.  Calls that run
    generated code or LLVM passes may never come back ([None]): the verifier
    aborts the process on a broken module, and so does a faulting callee. *)
Record Env (World : Type) := mkEnv {
  MemoryBuffer_getFile : string -> World -> (Z * string) * World;
  ParseBitcodeFile : string -> World -> (option Module * string) * World;
  sdb_Analyze : World -> Z * World;
  sdb_Write : string -> World -> Z * World;
  sdb_GetAllVariables : World -> (Z * list VariableSymbol) * World;
  Linker_LinkModules :
    Module -> Module -> string -> World -> (Module * string) * World;
  ModuleGenerator_Generate : Module -> World -> (Z * Module) * World;
  raw_fd_ostream_new : string -> string -> World -> string * World;
  WriteBitcodeToFile : Module -> string -> World -> unit * World;
  MaterializeAllPermanently :
    Module -> string -> World -> (bool * (Module * string)) * World;
  getDefaultTargetTriple : string;
  PassManager_run : list Pass -> Module -> World -> option (Module * World);
  engine_addGlobalMapping : string -> string -> World -> unit * World;
  engine_runStaticConstructorsDestructors :
    Module -> bool -> Memory -> World -> option (Memory * World);
  engine_runFunction :
    Module -> option Function -> Memory -> World -> option ((Z * Memory) * World);
  engine_getPointerToFunction : Function -> World -> unit * World
}.

Arguments MemoryBuffer_getFile {World}.
Arguments ParseBitcodeFile {World}.
Arguments sdb_Analyze {World}.
Arguments sdb_Write {World}.
Arguments sdb_GetAllVariables {World}.
Arguments Linker_LinkModules {World}.
Arguments ModuleGenerator_Generate {World}.
Arguments raw_fd_ostream_new {World}.
Arguments WriteBitcodeToFile {World}.
Arguments MaterializeAllPermanently {World}.
Arguments getDefaultTargetTriple {World}.
Arguments PassManager_run {World}.
Arguments engine_addGlobalMapping {World}.
Arguments engine_runStaticConstructorsDestructors {World}.
Arguments engine_runFunction {World}.
Arguments engine_getPointerToFunction {World}.

(** The build's byte order, the command-line flags of [cpu-private.h], and
    what the constructor fixes for the life of the object. *)
Record Config := mkConfig {
  XE_CPU_BIGENDIAN : bool;
  FLAGS_dump_module_map : bool;
  FLAGS_dump_module_bitcode : bool;
  FLAGS_optimize_ir_modules : bool;
  FLAGS_dump_path : string;
  module_name_ : string;
  module_path_ : string;
  memory_base : Z
}.

(** [xesnprintfa(buffer, count, ...)]: the formatted text, cut to fit the
    buffer with its terminator. *)
Definition xesnprintfa (count : nat) (text : string) : string :=
  String.substring 0 (count - 1) text.

Definition file_name_for (cfg : Config) (suffix : string) : string :=
  xesnprintfa 2048
    (String.append (FLAGS_dump_path cfg)
                   (String.append (module_name_ cfg) suffix)).

Definition thunk_path : string := "src/cpu/xethunk/xethunk.bc".

Definition string_empty (s : string) : bool :=
  match s with EmptyString => true | _ => false end.

(* ================================================================== *)
(** ** The object, and the control flow of its methods *)

Section Embedding.

Variable World : Type.

(** The fields of [ExecModule] that change, the collaborators' world, and
    the two observation channels: calls made and lines logged. *)
Record State := mkState {
  memory_ : Memory;
  gen_module_ : option Module;
  codegen_ : bool;
  world : World;
  trace : list Event;
  log : list string
}.

Definition set_memory (mem : Memory) (s : State) : State :=
  mkState mem (gen_module_ s) (codegen_ s) (world s) (trace s) (log s).
Definition set_gen_module (m : Module) (s : State) : State :=
  mkState (memory_ s) (Some m) (codegen_ s) (world s) (trace s) (log s).
Definition set_codegen (s : State) : State :=
  mkState (memory_ s) (gen_module_ s) true (world s) (trace s) (log s).
Definition set_world (w : World) (s : State) : State :=
  mkState (memory_ s) (gen_module_ s) (codegen_ s) w (trace s) (log s).
Definition add_event (e : Event) (s : State) : State :=
  mkState (memory_ s) (gen_module_ s) (codegen_ s) (world s)
          (trace s ++ [e]) (log s).
Definition add_log (line : string) (s : State) : State :=
  mkState (memory_ s) (gen_module_ s) (codegen_ s) (world s) (trace s)
          (log s ++ [line]).

(** How a method body ends: it runs to its end with a value, it jumps to
    the [XECLEANUP] label, or the process dies (a null pointer is
    dereferenced, or a collaborator never returns). *)
Inductive Outcome (A : Type) :=
| Ret (a : A)
| Cleanup
| Crash.
Arguments Ret {A}.
Arguments Cleanup {A}.
Arguments Crash {A}.

Definition M (A : Type) : Type := State -> Outcome A * State.

Definition ret {A} (a : A) : M A := fun s => (Ret a, s).

Definition bind {A B} (c : M A) (k : A -> M B) : M B :=
  fun s =>
    match c s with
    | (Ret a, s') => k a s'
    | (Cleanup, s') => (Cleanup, s')
    | (Crash, s') => (Crash, s')
    end.

Notation "x <- c1 ;; c2" := (bind c1 (fun x => c2))
  (at level 61, c1 at next level, right associativity).
Notation "' pat <- c1 ;; c2" :=
  (bind c1 (fun x => match x with pat => c2 end))
  (at level 61, pat pattern, c1 at next level, right associativity).
Notation "c1 ;; c2" := (bind c1 (fun _ => c2))
  (at level 61, right associativity).

Definition modify (f : State -> State) : M unit := fun s => (Ret tt, f s).

(** A call that returns: the world moves on and the call is recorded. *)
Definition call {A} (f : World -> A * World) (ev : A -> Event) : M A :=
  fun s =>
    let '(a, w) := f (world s) in
    (Ret a, add_event (ev a) (set_world w s)).

(** [XEEXPECTZERO], [XEEXPECTTRUE], [XEEXPECTNOTNULL]: [goto XECLEANUP]
    unless the condition holds. *)
Definition XEEXPECTZERO (rc : Z) : M unit :=
  fun s => if rc =? 0 then (Ret tt, s) else (Cleanup, s).
Definition XEEXPECTTRUE (b : bool) : M unit :=
  fun s => if b then (Ret tt, s) else (Cleanup, s).
Definition XEEXPECTNOTNULL {A} (p : option A) : M A :=
  fun s => match p with Some a => (Ret a, s) | None => (Cleanup, s) end.

(** [gen_module_->...] and [*gen_module_]: dereferences the pointer. *)
Definition the_module : M Module :=
  fun s => match gen_module_ s with
           | Some m => (Ret m, s)
           | None => (Crash, s)
           end.

Definition modify_module (f : Module -> Module) : M unit :=
  m <- the_module ;; modify (set_gen_module (f m)).

Fixpoint for_each {A} (l : list A) (body : A -> M unit) : M unit :=
  match l with
  | [] => ret tt
  | x :: l' => body x ;; for_each l' body
  end.

Variable env : Env World.
Variable cfg : Config.

(** [engine_->runStaticConstructorsDestructors(gen_module_.get(), isDtors)]
    and [engine_->runFunction(f, args)]. *)
Definition runStaticConstructorsDestructors (m : Module) (isDtors : bool)
    : M unit :=
  fun s =>
    let s1 := add_event (EvRunStaticConstructorsDestructors isDtors) s in
    match engine_runStaticConstructorsDestructors env m isDtors
            (memory_ s) (world s) with
    | Some (mem, w) => (Ret tt, set_memory mem (set_world w s1))
    | None => (Crash, s1)
    end.

Definition runFunction (m : Module) (f : option Function) : M Z :=
  fun s =>
    let s1 := add_event (EvRunFunction f) s in
    match engine_runFunction env m f (memory_ s) (world s) with
    | Some ((v, mem), w) => (Ret v, set_memory mem (set_world w s1))
    | None => (Crash, s1)
    end.

(** [pm.run( *gen_module_)]. *)
Definition run_passes (pm : list Pass) : M unit :=
  m <- the_module ;;
  fun s =>
    let s1 := add_event (EvPassManagerRun pm) s in
    match PassManager_run env pm m (world s) with
    | Some (m', w) => (Ret tt, set_gen_module m' (set_world w s1))
    | None => (Crash, s1)
    end.

(** *** [ExecModule::InjectGlobals] *)

Definition xe_memory_base : GlobalVariable :=
  mkGlobalVariable "xe_memory_base" Int8PtrTy true 64 (memory_base cfg).

Definition inject (name : string) (args : list Ty) (host_fn : string)
    : M unit :=
  modify_module (Function_Create VoidTy args name) ;;
  call (engine_addGlobalMapping env name host_fn)
       (fun _ => EvAddGlobalMapping name host_fn) ;;
  ret tt.

Definition trapArgs := [Int8PtrTy; Int32Ty].
Definition indirectBranchArgs := [Int8PtrTy; Int64Ty; Int64Ty].
Definition invalidInstructionArgs := [Int8PtrTy; Int32Ty; Int32Ty].
Definition traceCallArgs := [Int8PtrTy; Int64Ty; Int64Ty; Int64Ty].
Definition traceInstructionArgs := [Int8PtrTy; Int32Ty; Int32Ty].

Definition InjectGlobals : M Z :=
  modify_module (add_GlobalVariable xe_memory_base) ;;
  inject "XeTrap" trapArgs "XeTrap" ;;
  inject "XeIndirectBranch" indirectBranchArgs "XeIndirectBranch" ;;
  inject "XeInvalidInstruction" invalidInstructionArgs
         "XeInvalidInstruction" ;;
  inject "XeTraceKernelCall" traceCallArgs "XeTraceKernelCall" ;;
  inject "XeTraceUserCall" traceCallArgs "XeTraceUserCall" ;;
  inject "XeTraceInstruction" traceInstructionArgs "XeTraceInstruction" ;;
  ret 0.

(** *** [ExecModule::Init] *)

Definition warning_no_value (name : string) : string :=
  String.append "WARNING: imported a variable with no value: " name.

(** One turn of the loop over [variables]. *)
Definition bind_variable (s : State) (var : VariableSymbol) : State :=
  match kernel_export var with
  | None => s
  | Some kernel_export =>
      match ke_type kernel_export with
      | Function_ => s
      | Variable_ =>
          let be := XE_CPU_BIGENDIAN cfg in
          if is_implemented kernel_export then
            set_memory
              (store_u32 be (memory_ s) (address var)
                 (XESWAP32BE be (variable_ptr kernel_export))) s
          else
            add_log (warning_no_value (ke_name kernel_export))
              (set_memory
                 (store_u32 be (memory_ s) (address var)
                    (XESWAP32BE be DEADBEEF)) s)
      end
  end.

Definition bind_variables (variables : list VariableSymbol) (s : State)
    : State :=
  fold_left bind_variable variables s.

(** The engine's answer is [ret.IntVal.getSExtValue()], a 64-bit signed
    number, and the method returns it cast to [int].  With a null
    [gen_module_] the static constructors are still requested (the engine
    is handed the null pointer) before [gen_module_->getFunction]
    dereferences it. *)
Definition Init : M Z :=
  ' (rc, variables) <- call (sdb_GetAllVariables env)
                            (fun r => EvGetAllVariables (fst r)) ;;
  if negb (rc =? 0) then ret 1
  else
    modify (bind_variables variables) ;;
    fun s =>
      match gen_module_ s with
      | Some m =>
          (runStaticConstructorsDestructors m false ;;
           let xe_module_init := getFunction m "xe_module_init" in
           v <- runFunction m xe_module_init ;;
           ret (static_cast_int v)) s
      | None =>
          (Crash, add_event (EvRunStaticConstructorsDestructors false) s)
      end.

(** *** [ExecModule::Uninit] *)

Definition Uninit : M Z :=
  m <- the_module ;;
  let xe_module_uninit := getFunction m "xe_module_uninit" in
  runFunction m xe_module_uninit ;;
  runStaticConstructorsDestructors m true ;;
  ret 0.

(** *** [ExecModule::Prepare] *)

Definition pmb_optimize : PassManagerBuilder :=
  mkPassManagerBuilder 3 0 true true true.

(** The passes added to [pm] before [pm.run]. *)
Definition Prepare_passes : list Pass :=
  [DataLayoutPass]
  ++ (if FLAGS_optimize_ir_modules cfg
      then [VerifierPass; ModulePasses pmb_optimize;
            LTOPasses pmb_optimize false true]
      else [])
  ++ [VerifierPass].

(** Opens [file_name] and writes the module's bitcode to it. *)
Definition dump_bitcode (file_name error_message : string) : M string :=
  error_message <- call (raw_fd_ostream_new env file_name error_message)
                        (EvRawFdOstream file_name) ;;
  XEEXPECTTRUE (string_empty error_message) ;;
  m <- the_module ;;
  call (WriteBitcodeToFile env m file_name)
       (fun _ => EvWriteBitcodeToFile file_name) ;;
  ret error_message.

(** From [// Initialize the module.] to the end of the
    [if (!gen_module_.get()) { ... }] block; the value is the local
    [error_message] as the block leaves it. *)
Definition Prepare_build (shared_module : Module) (error_message : string)
    : M string :=
  call (fun w => (tt, w)) (fun _ => EvNewModule (module_name_ cfg)) ;;
  modify (set_gen_module (new_Module (module_name_ cfg))) ;;
  rc <- InjectGlobals ;;
  XEEXPECTZERO rc ;;
  m <- the_module ;;
  ' (linked, error_message) <-
      call (Linker_LinkModules env m shared_module error_message)
           (fun _ => EvLinkModules) ;;
  modify (set_gen_module linked) ;;
  modify set_codegen ;;
  ' (rc, generated) <-
      call (ModuleGenerator_Generate env linked)
           (fun r => EvGenerate (fst r)) ;;
  modify (set_gen_module generated) ;;
  XEEXPECTZERO rc ;;
  if FLAGS_dump_module_bitcode cfg then
    dump_bitcode (file_name_for cfg "-preopt.bc") error_message
  else ret error_message.

(** The body of [if (!gen_module_.get()) { ... }]. *)
Definition Prepare_generate : M string :=
  ' (rc, shared_module_buffer) <-
      call (MemoryBuffer_getFile env thunk_path)
           (fun r => EvGetFile thunk_path (fst r)) ;;
  XEEXPECTZERO rc ;;
  ' (parsed, error_message) <-
      call (ParseBitcodeFile env shared_module_buffer)
           (fun r => EvParseBitcodeFile
                       (match fst r with Some _ => true | None => false end)) ;;
  shared_module <- XEEXPECTNOTNULL parsed ;;
  rc <- call (sdb_Analyze env) EvAnalyze ;;
  XEEXPECTZERO rc ;;
  (if FLAGS_dump_module_map cfg then
     let file_name := file_name_for cfg ".map" in
     call (sdb_Write env file_name) (EvSdbWrite file_name) ;; ret tt
   else ret tt) ;;
  Prepare_build shared_module error_message.

(** [// Force JIT of all functions.] *)
Definition force_jit : M unit :=
  m <- the_module ;;
  for_each (function_list m)
    (fun fn =>
       if negb (isDeclaration fn) then
         call (engine_getPointerToFunction env fn)
              (fun _ => EvGetPointerToFunction fn)
       else ret tt).

(** [// Initialize the module.] and the loop after it. *)
Definition Prepare_initialize : M unit :=
  rc <- Init ;;
  XEEXPECTZERO rc ;;
  force_jit.

(** From [// Link optimizations.] to the end of the forced-JIT loop. *)
Definition Prepare_finish (error_message : string) : M unit :=
  m <- the_module ;;
  ' (failed, (materialized, error_message)) <-
      call (MaterializeAllPermanently env m error_message)
           (fun r => EvMaterializeAllPermanently (fst r)) ;;
  modify (set_gen_module materialized) ;;
  XEEXPECTTRUE (negb failed) ;;
  modify_module (setTargetTriple (getDefaultTargetTriple env)) ;;
  run_passes Prepare_passes ;;
  (if FLAGS_optimize_ir_modules cfg && FLAGS_dump_module_bitcode cfg then
     dump_bitcode (file_name_for cfg ".bc") error_message ;; ret tt
   else ret tt) ;;
  Prepare_initialize.

Definition Prepare_body : M unit :=
  fun s =>
    match gen_module_ s with
    | None => (error_message <- Prepare_generate ;;
               Prepare_finish error_message) s
    | Some _ => Prepare_finish "" s
    end.

(** [result_code] starts at 1 and becomes 0 only when the body runs to its
    end; [XECLEANUP] returns it. *)
Definition Prepare : M Z :=
  fun s =>
    match Prepare_body s with
    | (Ret _, s') => (Ret 0, s')
    | (Cleanup, s') => (Ret 1, s')
    | (Crash, s') => (Crash, s')
    end.

End Embedding.

Arguments Ret {A}.
Arguments Cleanup {A}.
Arguments Crash {A}.
Arguments memory_ {World}.
Arguments gen_module_ {World}.
Arguments codegen_ {World}.
Arguments world {World}.
Arguments trace {World}.
Arguments log {World}.
Arguments mkState {World}.

(* ================================================================== *)
(** ** Vocabulary of the properties *)

(** The symbol is bound to an export that is not a function: the loop of
    [Init] stores a word for it. *)
Definition writes_slot (var : VariableSymbol) : bool :=
  match kernel_export var with
  | Some ke => match ke_type ke with Variable_ => true | Function_ => false end
  | None => false
  end.

(** The value the guest is to find in that word. *)
Definition slot_value (var : VariableSymbol) : Z :=
  match kernel_export var with
  | Some ke => if is_implemented ke then variable_ptr ke else DEADBEEF
  | None => 0
  end.

(** The symbol is bound to a non-function export nobody implements. *)
Definition unimplemented (var : VariableSymbol) : bool :=
  match kernel_export var with
  | Some ke => match ke_type ke with
               | Variable_ => negb (is_implemented ke)
               | Function_ => false
               end
  | None => false
  end.

Definition export_name (var : VariableSymbol) : string :=
  match kernel_export var with Some ke => ke_name ke | None => "" end.

(** One warning per unimplemented symbol, in symbol order. *)
Definition warnings_of (variables : list VariableSymbol) : list string :=
  map (fun var => warning_no_value (export_name var))
      (filter unimplemented variables).

(** One store per symbol with a slot, in symbol order. *)
Definition bind_memory (be : bool) (variables : list VariableSymbol)
    (mem : Memory) : Memory :=
  fold_left
    (fun mem var =>
       store_u32 be mem (address var) (XESWAP32BE be (slot_value var)))
    (filter writes_slot variables) mem.

(** [q] is one of the four bytes of the word at [p]. *)
Definition in_word (p q : Z) : Prop := p <= q < p + 4.

(** No symbol of the list stores into the word at [p]. *)
Definition untouched_by (variables : list VariableSymbol) (p : Z) : Prop :=
  forall var, In var variables -> writes_slot var = true ->
    address var + 4 <= p \/ p + 4 <= address var.

(** The engine's calls leave the word at [p] as it is. *)
Definition engine_keeps_word {World} (env : Env World) (p : Z) : Prop :=
  (forall m d mem w mem' w',
      engine_runStaticConstructorsDestructors env m d mem w = Some (mem', w') ->
      forall q, in_word p q -> mem' q = mem q) /\
  (forall m f mem w v mem' w',
      engine_runFunction env m f mem w = Some ((v, mem'), w') ->
      forall q, in_word p q -> mem' q = mem q).

(** The events a run added to the trace. *)
Definition events_of {World} (s s' : State World) (evs : list Event) : Prop :=
  trace s' = trace s ++ evs.

(* ================================================================== *)
(** ** A scripted stand-in for the collaborators

    Concrete runs need concrete collaborators.  [scripted sc] answers every
    call from the script [sc]: the linker and the generator append
    functions, passes and generated code leave module and memory alone, and
    the engine refuses to run a null function. *)

Record Script := mkScript {
  sc_getFile_rc : Z;
  sc_parsed : option Module;
  sc_analyze_rc : Z;
  sc_write_rc : Z;
  sc_getvars_rc : Z;
  sc_variables : list VariableSymbol;
  sc_generated : list Function;
  sc_generate_rc : Z;
  sc_open_error : string;
  sc_materialize_fails : bool;
  sc_entry_result : Z
}.

Definition append_functions (fns : list Function) (m : Module) : Module :=
  mkModule (module_identifier m) (target_triple m) (global_list m)
           (function_list m ++ fns).

Definition scripted (sc : Script) : Env unit :=
  mkEnv unit
    (fun _ w => ((sc_getFile_rc sc, "BC"), w))
    (fun _ w => ((sc_parsed sc, ""), w))
    (fun w => (sc_analyze_rc sc, w))
    (fun _ w => (sc_write_rc sc, w))
    (fun w => ((sc_getvars_rc sc, sc_variables sc), w))
    (fun dest src em w => ((append_functions (function_list src) dest, em), w))
    (fun m w => ((sc_generate_rc sc, append_functions (sc_generated sc) m), w))
    (fun _ _ w => (sc_open_error sc, w))
    (fun _ _ w => (tt, w))
    (fun m em w => ((sc_materialize_fails sc, (m, em)), w))
    "x86_64-unknown-linux-gnu"
    (fun _ m w => Some (m, w))
    (fun _ _ w => (tt, w))
    (fun _ _ mem w => Some (mem, w))
    (fun _ f mem w =>
       match f with
       | Some _ => Some ((sc_entry_result sc, mem), w)
       | None => None
       end)
    (fun _ w => (tt, w)).

(** The runtime support module: the two entry points, with bodies. *)
Definition thunk_module : Module :=
  mkModule "xethunk" "" []
    [mkFunction "xe_module_init" Int32Ty [] false;
     mkFunction "xe_module_uninit" VoidTy [] false].

(** A guest function at 0x1000, translated. *)
Definition sub_1000 : Function := mkFunction "sub_00001000" VoidTy [Int8PtrTy] false.

Definition export_time : KernelExport :=
  mkKernelExport "KeTimeStampBundle" Variable_ true 305419896.
Definition export_debugger : KernelExport :=
  mkKernelExport "KdDebuggerEnabled" Variable_ false 0.
Definition export_close : KernelExport :=
  mkKernelExport "NtClose" Function_ true 0.

Definition var_time : VariableSymbol := mkVariableSymbol 4096 (Some export_time).
Definition var_debugger : VariableSymbol :=
  mkVariableSymbol 4100 (Some export_debugger).
Definition var_close : VariableSymbol := mkVariableSymbol 4104 (Some export_close).
Definition var_plain : VariableSymbol := mkVariableSymbol 4108 None.

Definition sample_variables : list VariableSymbol :=
  [var_time; var_debugger; var_close; var_plain].

(** Everything succeeds. *)
Definition sc_ok : Script :=
  mkScript 0 (Some thunk_module) 0 0 0 sample_variables [sub_1000] 0 ""
           false 0.

(** A little-endian host with all dumps and the optimizer off. *)
Definition cfg_plain : Config :=
  mkConfig false false false false "dump/" "game" "game.xex" 0.

(** The same host with every flag on. *)
Definition cfg_dumps : Config :=
  mkConfig false true true true "dump/" "game" "game.xex" 0.

Definition zero_memory : Memory := fun _ => 0.

(** The object as its constructor leaves it. *)
Definition constructed : State unit :=
  mkState zero_memory None false tt [] [].

(** The object holding a generated module that is the runtime support
    module alone. *)
Definition with_thunk : State unit :=
  mkState zero_memory (Some thunk_module) true tt [] [].

(** The object holding a generated module without entry points. *)
Definition with_bare_module : State unit :=
  mkState zero_memory (Some (mkModule "game" "" [] [sub_1000])) true tt [] [].

(** [Uninit] runs the entry point only when the module has it. *)
Definition invoked_only_if_present (m : Module) (name : string)
    (evs : list Event) : Prop :=
  getFunction m name = None -> forall f, ~ In (EvRunFunction f) evs.

(** What [InjectGlobals] declares and binds, in order. *)
Definition injected_functions : list Function :=
  [mkFunction "XeTrap" VoidTy trapArgs true;
   mkFunction "XeIndirectBranch" VoidTy indirectBranchArgs true;
   mkFunction "XeInvalidInstruction" VoidTy invalidInstructionArgs true;
   mkFunction "XeTraceKernelCall" VoidTy traceCallArgs true;
   mkFunction "XeTraceUserCall" VoidTy traceCallArgs true;
   mkFunction "XeTraceInstruction" VoidTy traceInstructionArgs true].

Definition injected_events : list Event :=
  map (fun f => EvAddGlobalMapping (fn_name f) (fn_name f)) injected_functions.

(** The calls a successful bitcode dump makes, when the dump is on. *)
Definition dump_events (on : bool) (file_name : string) : list Event :=
  if on then [EvRawFdOstream file_name ""; EvWriteBitcodeToFile file_name]
  else [].

(** The calls of the forced-JIT loop over [m]. *)
Definition jit_events (m : Module) : list Event :=
  map EvGetPointerToFunction
      (filter (fun fn => negb (isDeclaration fn)) (function_list m)).

Definition is_jit_event (e : Event) : bool :=
  match e with EvGetPointerToFunction _ => true | _ => false end.

(** The calls [Init] makes. *)
Definition is_init_event (e : Event) : bool :=
  match e with
  | EvGetAllVariables _ => true
  | EvRunStaticConstructorsDestructors false => true
  | EvRunFunction _ => true
  | _ => false
  end.

(** The calls of the block that builds the generated module: loading the
    runtime support module, analysis, module creation, global injection,
    linking and code generation. *)
Definition is_generation_event (e : Event) : bool :=
  match e with
  | EvGetFile _ _ | EvParseBitcodeFile _ | EvAnalyze _ | EvSdbWrite _ _
  | EvNewModule _ | EvAddGlobalMapping _ _ | EvLinkModules | EvGenerate _ =>
      true
  | _ => false
  end.

Definition is_generate_call (e : Event) : bool :=
  match e with EvGenerate _ => true | _ => false end.

Definition count_generate (evs : list Event) : nat :=
  List.length (filter is_generate_call evs).

(** *** The courses a run of [Prepare] can take *)

(** The calls of the module-building block up to and including code
    generation, for an analysis that succeeded: [wrc] is what writing the
    symbol map returned and [rc] what the generator returned. *)
Definition build_events (cfg : Config) (wrc rc : Z) : list Event :=
  [EvGetFile thunk_path 0; EvParseBitcodeFile true; EvAnalyze 0]
  ++ (if FLAGS_dump_module_map cfg
      then [EvSdbWrite (file_name_for cfg ".map") wrc] else [])
  ++ [EvNewModule (module_name_ cfg)]
  ++ injected_events
  ++ [EvLinkModules; EvGenerate rc].

(** The courses of the module-building block: how it ends, whether it
    created the module, and the calls it made. *)
Inductive generate_shape (cfg : Config)
  : Outcome string -> bool -> list Event -> Prop :=
| gen_no_thunk rc :
    rc <> 0 ->
    generate_shape cfg Cleanup false [EvGetFile thunk_path rc]
| gen_bad_thunk :
    generate_shape cfg Cleanup false
      [EvGetFile thunk_path 0; EvParseBitcodeFile false]
| gen_analysis_failed rc :
    rc <> 0 ->
    generate_shape cfg Cleanup false
      [EvGetFile thunk_path 0; EvParseBitcodeFile true; EvAnalyze rc]
| gen_codegen_failed wrc rc :
    rc <> 0 ->
    generate_shape cfg Cleanup true (build_events cfg wrc rc)
| gen_dump_failed wrc err :
    err <> "" ->
    FLAGS_dump_module_bitcode cfg = true ->
    generate_shape cfg Cleanup true
      (build_events cfg wrc 0
       ++ [EvRawFdOstream (file_name_for cfg "-preopt.bc") err])
| gen_done wrc error_message :
    generate_shape cfg (Ret error_message) true
      (build_events cfg wrc 0
       ++ dump_events (FLAGS_dump_module_bitcode cfg)
            (file_name_for cfg "-preopt.bc")).

(** The calls from materialization to the post-optimization dump, when
    all of them succeed. *)
Definition optimize_events (cfg : Config) : list Event :=
  [EvMaterializeAllPermanently false; EvPassManagerRun (Prepare_passes cfg)]
  ++ dump_events (FLAGS_optimize_ir_modules cfg && FLAGS_dump_module_bitcode cfg)
       (file_name_for cfg ".bc").

(** The courses of the rest of [Prepare]: how it ends, the final state,
    and the calls it made. *)
Inductive finish_shape {World : Type} (env : Env World) (cfg : Config)
  : Outcome unit -> State World -> list Event -> Prop :=
| fin_materialize_failed s' :
    finish_shape env cfg Cleanup s' [EvMaterializeAllPermanently true]
| fin_passes_died s' :
    finish_shape env cfg Crash s'
      [EvMaterializeAllPermanently false;
       EvPassManagerRun (Prepare_passes cfg)]
| fin_dump_failed s' err :
    err <> "" ->
    FLAGS_optimize_ir_modules cfg && FLAGS_dump_module_bitcode cfg = true ->
    finish_shape env cfg Cleanup s'
      [EvMaterializeAllPermanently false;
       EvPassManagerRun (Prepare_passes cfg);
       EvRawFdOstream (file_name_for cfg ".bc") err]
| fin_init_failed s' s_mid oi s_init ievs :
    Init World env cfg s_mid = (oi, s_init) ->
    trace s_init = trace s_mid ++ ievs ->
    oi <> Ret 0 ->
    finish_shape env cfg
      (match oi with Crash => Crash | _ => Cleanup end) s'
      (optimize_events cfg ++ ievs)
| fin_done s' s_mid s_init ievs mf :
    Init World env cfg s_mid = (Ret 0, s_init) ->
    trace s_init = trace s_mid ++ ievs ->
    gen_module_ s' = Some mf ->
    finish_shape env cfg (Ret tt) s'
      (optimize_events cfg ++ ievs ++ jit_events mf).

(** [result_code] as [Prepare] returns it. *)
Definition result_of {A} (o : Outcome A) : Outcome Z :=
  match o with Ret _ => Ret 0 | Cleanup => Ret 1 | Crash => Crash end.

(** The calls of the second half of [Prepare] other than the forced-JIT
    loop. *)
Definition is_optimize_event (e : Event) : bool :=
  match e with
  | EvMaterializeAllPermanently _ | EvPassManagerRun _
  | EvRawFdOstream _ _ | EvWriteBitcodeToFile _ => true
  | _ => false
  end.

(** Some forced compilation follows a call made by [Init]. *)
Fixpoint jit_after_init (seen_init : bool) (evs : list Event) : bool :=
  match evs with
  | [] => false
  | e :: rest =>
      (seen_init && is_jit_event e)
      || jit_after_init (seen_init || is_init_event e) rest
  end.

(** Forced compilation is over before [Init] starts. *)
Definition compiled_before_init (evs : list Event) : Prop :=
  jit_after_init false evs = false.

(** A dump file that cannot be opened does not stop the pipeline: some
    later call follows it. *)
Definition dump_failure_recovered (evs : list Event) : Prop :=
  forall pre file_name err post,
    evs = pre ++ EvRawFdOstream file_name err :: post ->
    err <> "" -> post <> [].

(** Materialization and the pass manager keep the module's functions. *)
Definition functions_preserved {World} (env : Env World) : Prop :=
  (forall m em w,
      function_list (fst (snd (fst (MaterializeAllPermanently env m em w))))
      = function_list m) /\
  (forall ps m w m' w',
      PassManager_run env ps m w = Some (m', w') ->
      function_list m' = function_list m).

(** The file for the dumps cannot be opened. *)
Definition sc_no_dump_file : Script :=
  mkScript 0 (Some thunk_module) 0 0 0 sample_variables [sub_1000] 0
           "Permission denied" false 0.

(** Analysis of the guest image fails. *)
Definition sc_bad_image : Script :=
  mkScript 0 (Some thunk_module) 7 0 0 sample_variables [sub_1000] 0 ""
           false 0.

(* ================================================================== *)
(** ** The other entry points of the object *)

Section EntryPoints.

Variable World : Type.
Variable env : Env World.
Variable cfg : Config.

(** [sdb_ = new RawSymbolDatabase(memory_, resolver, start, end)] and
    [sdb_ = new XexSymbolDatabase(memory_, resolver, user_module)]: the
    database the later [sdb_->...] calls reach is a new one, so the
    collaborators' world changes; nothing else does. *)
Variable new_RawSymbolDatabase : Z -> Z -> World -> World.
Variable UserModule : Type.
Variable new_XexSymbolDatabase : UserModule -> World -> World.
(** [user_module->xex()] followed by [xe_xex2_release(xex)]. *)
Variable xex_retain_release : UserModule -> World -> World.

(** [ExecModule::PrepareRawBinary]. *)
Definition PrepareRawBinary (start_address end_address : Z) : M World Z :=
  fun s =>
    Prepare World env cfg
      (set_world World
         (new_RawSymbolDatabase start_address end_address (world s)) s).

(** [ExecModule::PrepareUserModule]. *)
Definition PrepareUserModule (user_module : UserModule) : M World Z :=
  fun s =>
    match Prepare World env cfg
            (set_world World (new_XexSymbolDatabase user_module (world s)) s)
    with
    | (Ret result_code, s') =>
        if negb (result_code =? 0) then (Ret result_code, s')
        else (Ret 0,
              set_world World (xex_retain_release user_module (world s')) s')
    | (Cleanup, s') => (Cleanup, s')
    | (Crash, s') => (Crash, s')
    end.

(** [ExecModule::AddFunctionsToMap]: [codegen_->AddFunctionsToMap(map)],
    through the generator pointer, which is null until [Prepare] has
    constructed the generator. *)
Variable FunctionMap : Type.
Variable ModuleGenerator_AddFunctionsToMap :
  FunctionMap -> World -> FunctionMap * World.

Definition AddFunctionsToMap (map : FunctionMap) : M World FunctionMap :=
  fun s =>
    if codegen_ s then
      let '(map', w) := ModuleGenerator_AddFunctionsToMap map (world s) in
      (Ret map', set_world World w s)
    else (Crash, s).

End EntryPoints.

(** *** Vocabulary for the further properties *)

(** A call whose answer makes [Prepare] jump to its cleanup label. *)
Definition is_failed_check (e : Event) : bool :=
  match e with
  | EvGetFile _ rc => negb (rc =? 0)
  | EvParseBitcodeFile parsed => negb parsed
  | EvAnalyze rc => negb (rc =? 0)
  | EvGenerate rc => negb (rc =? 0)
  | EvMaterializeAllPermanently failed => failed
  | _ => false
  end.

(** A call that touches a dump file. *)
Definition is_dump_event (e : Event) : bool :=
  match e with
  | EvSdbWrite _ _ | EvRawFdOstream _ _ | EvWriteBitcodeToFile _ => true
  | _ => false
  end.

(** The object has a generator whenever it has a generated module. *)
Definition generator_with_module {World} (s : State World) : Prop :=
  gen_module_ s = None \/ codegen_ s = true.

(** No function of the module bears one of the injected names. *)
Definition no_injected_name (m : Module) : Prop :=
  forall f g, In f (function_list m) -> In g injected_functions ->
    fn_name f <> fn_name g.

(** Two symbols at one address, with different values. *)
Definition export_clock : KernelExport :=
  mkKernelExport "KeTimeStampBundle" Variable_ true 2864434397.
Definition var_clock : VariableSymbol := mkVariableSymbol 4096 (Some export_clock).

(** The generator refuses the guest code. *)
Definition sc_bad_code : Script :=
  mkScript 0 (Some thunk_module) 0 0 0 sample_variables [sub_1000] 3 ""
           false 0.

(** The symbol database cannot list its variables. *)
Definition sc_no_variables : Script :=
  mkScript 0 (Some thunk_module) 0 0 5 sample_variables [sub_1000] 0 ""
           false 0.

(** The entry point's answer does not fit an [int]: 2^32. *)
Definition sc_wide_answer : Script :=
  mkScript 0 (Some thunk_module) 0 0 0 sample_variables [sub_1000] 0 ""
           false 4294967296.

(* ================================================================== *)
(** ** Proof tactics *)

(** Bit-level equalities of machine words: compare bit by bit, push
    [Z.testbit] through the operators, and split on the bit's position. *)
Create Rewrite HintDb testbits.
#[global] Hint Rewrite Z.lor_spec Z.land_spec : testbits.
#[global] Hint Rewrite Z.shiftr_spec Z.shiftl_spec using lia : testbits.

Ltac bit_cases :=
  repeat match goal with
    | |- context [?a <=? ?b] => destruct (Z.leb_spec a b)
    | |- context [?a <? ?b] => destruct (Z.ltb_spec a b)
    end.

Ltac bitwise :=
  apply Z.bits_inj'; intros n Hn;
  unfold byte_of, XESWAP32;
  autorewrite with testbits;
  bit_cases; simpl;
  rewrite ?andb_false_r, ?andb_true_r, ?orb_false_r, ?orb_false_l;
  try reflexivity; try lia;
  try ((rewrite Z.testbit_neg_r by lia); reflexivity);
  try (f_equal; lia);
  try ((rewrite Z.shiftr_spec by lia); f_equal; lia).

(** Running a method body: unfold the control-flow combinators, then
    simplify what is read from the state. *)
Ltac unfold_monad H :=
  cbv beta iota delta
    [bind ret call modify modify_module the_module
     XEEXPECTZERO XEEXPECTTRUE XEEXPECTNOTNULL
     runStaticConstructorsDestructors runFunction run_passes] in H.

Ltac state_simpl :=
  cbn [memory_ gen_module_ codegen_ world trace log fst snd
       set_memory set_gen_module set_codegen set_world add_event add_log] in *.

(** The same by value, for long bodies: with the state a literal record,
    every step leaves a literal record behind. *)
Ltac exec_in H :=
  cbv beta iota delta
    [bind ret call modify modify_module the_module
     XEEXPECTZERO XEEXPECTTRUE XEEXPECTNOTNULL
     runStaticConstructorsDestructors runFunction run_passes
     memory_ gen_module_ codegen_ world trace log fst snd
     set_memory set_gen_module set_codegen set_world add_event add_log] in H.

Ltac exec_goal :=
  cbv beta iota delta
    [bind ret call modify modify_module the_module
     XEEXPECTZERO XEEXPECTTRUE XEEXPECTNOTNULL
     runStaticConstructorsDestructors runFunction run_passes
     memory_ gen_module_ codegen_ world trace log fst snd
     set_memory set_gen_module set_codegen set_world add_event add_log].

(* ================================================================== *)
(** ** Byte order *)

Lemma testbit_255 (n : Z) : Z.testbit 255 n = (0 <=? n) && (n <? 8).
Proof. change 255 with (Z.ones 8). apply Z.testbit_ones. lia. Qed.

Lemma testbit_65280 (n : Z) : Z.testbit 65280 n = (8 <=? n) && (n <? 16).
Proof.
  change 65280 with (Z.shiftl (Z.ones 8) 8).
  destruct (Z.leb_spec 0 n).
  - rewrite Z.shiftl_spec by lia. rewrite Z.testbit_ones by lia.
    destruct (Z.leb_spec 0 (n - 8)), (Z.leb_spec 8 n),
      (Z.ltb_spec (n - 8) 8), (Z.ltb_spec n 16); simpl; try reflexivity; lia.
  - rewrite Z.testbit_neg_r by lia.
    destruct (Z.leb_spec 8 n); simpl; try reflexivity; lia.
Qed.

#[global] Hint Rewrite testbit_255 testbit_65280 : testbits.

Lemma byte_of_XESWAP32_0 (v : Z) : byte_of (XESWAP32 v) 0 = byte_of v 3.
Proof. bitwise. Qed.
Lemma byte_of_XESWAP32_1 (v : Z) : byte_of (XESWAP32 v) 1 = byte_of v 2.
Proof. bitwise. Qed.
Lemma byte_of_XESWAP32_2 (v : Z) : byte_of (XESWAP32 v) 2 = byte_of v 1.
Proof. bitwise. Qed.
Lemma byte_of_XESWAP32_3 (v : Z) : byte_of (XESWAP32 v) 3 = byte_of v 0.
Proof. bitwise. Qed.

Lemma store8_same (mem : Memory) (p b : Z) : store8 mem p b p = b.
Proof. unfold store8. now rewrite Z.eqb_refl. Qed.

Lemma store8_other (mem : Memory) (p b q : Z) :
  q <> p -> store8 mem p b q = mem q.
Proof. unfold store8. intros H. destruct (Z.eqb_spec q p); congruence. Qed.

(** A host store of the swapped word leaves the word's bytes in guest
    (big-endian) order, whichever order the host uses. *)
Lemma store_u32_guest_bytes (be : bool) (mem : Memory) (p v : Z) :
  guest_bytes_at (store_u32 be mem p (XESWAP32BE be v)) p v.
Proof.
  unfold guest_bytes_at, store_u32, XESWAP32BE.
  destruct be;
    repeat split;
    repeat (first [ rewrite store8_same | rewrite store8_other by lia ]);
    auto using byte_of_XESWAP32_0, byte_of_XESWAP32_1,
               byte_of_XESWAP32_2, byte_of_XESWAP32_3.
Qed.

(** Outside the four bytes of the word, a store changes nothing. *)
Lemma store_u32_frame (be : bool) (mem : Memory) (p v q : Z) :
  q < p \/ p + 4 <= q -> store_u32 be mem p v q = mem q.
Proof.
  intros H. unfold store_u32.
  destruct be; repeat rewrite store8_other by lia; reflexivity.
Qed.

Lemma testbit_uint32 (v n : Z) :
  Z.testbit (uint32 v) n = (0 <=? n) && (n <? 32) && Z.testbit v n.
Proof.
  unfold uint32. rewrite <- Z.land_ones by lia.
  rewrite Z.land_spec, Z.testbit_ones by lia.
  apply andb_comm.
Qed.

(** Reading the word back as the guest does gives the value, as a 32-bit
    number. *)
Lemma guest_load_of_bytes (mem : Memory) (p v : Z) :
  guest_bytes_at mem p v -> guest_load_u32 mem p = uint32 v.
Proof.
  intros (H3 & H2 & H1 & H0). unfold guest_load_u32.
  rewrite H3, H2, H1, H0. clear.
  apply Z.bits_inj'; intros n Hn. unfold byte_of.
  rewrite testbit_uint32.
  repeat (rewrite ?Z.lor_spec, ?Z.land_spec, ?Z.shiftr_spec, ?Z.shiftl_spec,
           ?testbit_255 by lia).
  bit_cases; simpl;
    rewrite ?andb_false_r, ?andb_true_r, ?orb_false_r, ?orb_false_l;
    try reflexivity; try lia;
    try ((rewrite Z.testbit_neg_r by lia); reflexivity);
    try (f_equal; lia);
    try ((rewrite Z.shiftr_spec by lia); f_equal; lia).
Qed.

(* ================================================================== *)
(** ** The variable-binding loop of [Init] *)

Section Binding.

Context {World : Type}.
Variable cfg : Config.
Local Abbreviation be := (XE_CPU_BIGENDIAN cfg).

Implicit Types (s : State World) (var : VariableSymbol).

(** The loop touches guest memory and the log, nothing else. *)
Lemma bind_variable_fields s var :
  gen_module_ (bind_variable World cfg s var) = gen_module_ s /\
  codegen_ (bind_variable World cfg s var) = codegen_ s /\
  world (bind_variable World cfg s var) = world s /\
  trace (bind_variable World cfg s var) = trace s.
Proof.
  unfold bind_variable.
  destruct (kernel_export var) as [ke|]; auto.
  destruct (ke_type ke); auto.
  destruct (is_implemented ke); auto.
Qed.

Lemma bind_variables_fields variables s :
  gen_module_ (bind_variables World cfg variables s) = gen_module_ s /\
  codegen_ (bind_variables World cfg variables s) = codegen_ s /\
  world (bind_variables World cfg variables s) = world s /\
  trace (bind_variables World cfg variables s) = trace s.
Proof.
  unfold bind_variables. revert s.
  induction variables as [|var l IH]; intros s; simpl; auto.
  destruct (IH (bind_variable World cfg s var)) as (-> & -> & -> & ->).
  apply bind_variable_fields.
Qed.

Lemma bind_variable_memory s var :
  memory_ (bind_variable World cfg s var) =
  if writes_slot var
  then store_u32 be (memory_ s) (address var)
         (XESWAP32BE be (slot_value var))
  else memory_ s.
Proof.
  unfold bind_variable, writes_slot, slot_value.
  destruct (kernel_export var) as [ke|]; auto.
  destruct (ke_type ke); auto.
  destruct (is_implemented ke); auto.
Qed.

Lemma bind_variable_log s var :
  log (bind_variable World cfg s var) =
  log s ++ (if unimplemented var
            then [warning_no_value (export_name var)] else []).
Proof.
  unfold bind_variable, unimplemented, export_name.
  destruct (kernel_export var) as [ke|]; simpl; auto using app_nil_r.
  destruct (ke_type ke); simpl; auto using app_nil_r.
  destruct (is_implemented ke); simpl; auto using app_nil_r.
Qed.

Lemma bind_variables_memory variables s :
  memory_ (bind_variables World cfg variables s) =
  bind_memory be variables (memory_ s).
Proof.
  unfold bind_variables, bind_memory. revert s.
  induction variables as [|var l IH]; intros s; simpl; auto.
  rewrite IH, bind_variable_memory.
  destruct (writes_slot var); reflexivity.
Qed.

Lemma bind_variables_log variables s :
  log (bind_variables World cfg variables s) = log s ++ warnings_of variables.
Proof.
  unfold bind_variables, warnings_of. revert s.
  induction variables as [|var l IH]; intros s; simpl.
  - now rewrite app_nil_r.
  - rewrite IH, bind_variable_log.
    destruct (unimplemented var); simpl.
    + now rewrite <- app_assoc.
    + now rewrite app_nil_r.
Qed.

Lemma bind_memory_app l1 l2 mem :
  bind_memory be (l1 ++ l2) mem = bind_memory be l2 (bind_memory be l1 mem).
Proof. unfold bind_memory. now rewrite filter_app, fold_left_app. Qed.

Lemma warnings_of_app l1 l2 :
  warnings_of (l1 ++ l2) = warnings_of l1 ++ warnings_of l2.
Proof. unfold warnings_of. now rewrite filter_app, map_app. Qed.

(** A byte that lies in no stored word keeps its value. *)
Lemma bind_memory_frame variables mem q :
  (forall var, In var variables -> writes_slot var = true ->
     ~ in_word (address var) q) ->
  bind_memory be variables mem q = mem q.
Proof.
  unfold bind_memory. revert mem.
  induction variables as [|var l IH]; intros mem H; simpl; auto.
  destruct (writes_slot var) eqn:W; simpl.
  - rewrite IH by (intros; apply H; simpl; auto).
    apply store_u32_frame.
    assert (~ in_word (address var) q) by (apply H; simpl; auto).
    unfold in_word in *. lia.
  - apply IH. intros; apply H; simpl; auto.
Qed.

(** A word that no later symbol overlaps keeps the bytes stored for it. *)
Lemma bind_memory_keeps_word variables mem p q :
  untouched_by variables p -> in_word p q ->
  bind_memory be variables mem q = mem q.
Proof.
  intros H Hq. apply bind_memory_frame.
  intros var Hin W. specialize (H var Hin W).
  unfold in_word in *. lia.
Qed.

Lemma guest_bytes_at_ext (mem mem' : Memory) p v :
  (forall q, in_word p q -> mem' q = mem q) ->
  guest_bytes_at mem p v -> guest_bytes_at mem' p v.
Proof.
  unfold guest_bytes_at, in_word. intros H (H3 & H2 & H1 & H0).
  rewrite !H by lia. auto.
Qed.

(** After the loop, the word of a symbol with a slot holds its value in
    guest order, provided no later symbol stores over it. *)
Lemma bind_memory_word l1 var l2 mem :
  writes_slot var = true ->
  untouched_by l2 (address var) ->
  guest_bytes_at (bind_memory be (l1 ++ var :: l2) mem)
                 (address var) (slot_value var).
Proof.
  intros W H.
  change (var :: l2) with ([var] ++ l2).
  rewrite !bind_memory_app.
  apply guest_bytes_at_ext
    with (mem := bind_memory be [var] (bind_memory be l1 mem)).
  - intros q Hq. now apply bind_memory_keeps_word with (p := address var).
  - unfold bind_memory at 1. simpl. rewrite W. simpl.
    apply store_u32_guest_bytes.
Qed.

End Binding.

(* ================================================================== *)
(** ** [Init] and [Uninit], case by case *)

Section InitUninit.

Context {World : Type}.
Variable env : Env World.
Variable cfg : Config.
Local Abbreviation be := (XE_CPU_BIGENDIAN cfg).

Implicit Types (s : State World).

Lemma Init_returns s r s' variables w1 :
  Init World env cfg s = (Ret r, s') ->
  sdb_GetAllVariables env (world s) = ((0, variables), w1) ->
  exists m mem3 w3 v,
    gen_module_ s = Some m /\
    engine_runStaticConstructorsDestructors env m false
      (bind_memory be variables (memory_ s)) w1 = Some (mem3, w3) /\
    engine_runFunction env m (getFunction m "xe_module_init") mem3 w3
      = Some ((v, memory_ s'), world s') /\
    r = static_cast_int v /\
    log s' = log s ++ warnings_of variables /\
    trace s' = trace s ++ [EvGetAllVariables 0;
                           EvRunStaticConstructorsDestructors false;
                           EvRunFunction (getFunction m "xe_module_init")] /\
    gen_module_ s' = Some m.
Proof.
  intros H G. unfold Init in H. unfold_monad H. rewrite G in H.
  cbv beta iota in H. state_simpl.
  change (negb (0 =? 0)) with false in H. cbv beta iota in H.
  set (s1 := add_event World (EvGetAllVariables 0) (set_world World w1 s)) in H.
  destruct (bind_variables_fields cfg variables s1) as (Eg & _ & Ew & Et).
  pose proof (bind_variables_memory cfg variables s1) as Em.
  pose proof (bind_variables_log cfg variables s1) as El.
  destruct (bind_variables World cfg variables s1) as [mem2 g2 c2 w2 t2 l2].
  subst s1. state_simpl. subst.
  destruct (gen_module_ s) as [m|]; cbv beta iota in H; [|discriminate H].
  state_simpl. exists m.
  destruct (engine_runStaticConstructorsDestructors env m false _ w1)
    as [[mem3 w3]|] eqn:E1; cbv beta iota in H; [|discriminate H].
  state_simpl. cbv beta iota in H.
  destruct (engine_runFunction env m _ mem3 w3) as [[[v mem4] w4]|] eqn:E2;
    cbv beta iota in H; [|discriminate H].
  inversion H; subst; clear H. state_simpl.
  exists mem3, w3, v. rewrite <- !app_assoc. simpl. auto 10.
Qed.

(** Whatever the symbols are, [Init] logs one warning per unimplemented
    one and then either returns what the entry point returned, cast to
    [int], or dies inside the engine; the loop has no failure of its
    own. *)
Lemma Init_after_binding s o s' variables w1 :
  Init World env cfg s = (o, s') ->
  sdb_GetAllVariables env (world s) = ((0, variables), w1) ->
  log s' = log s ++ warnings_of variables /\
  gen_module_ s' = gen_module_ s /\
  (o = Crash \/
   exists v m mem w,
     o = Ret (static_cast_int v) /\ gen_module_ s = Some m /\
     engine_runFunction env m (getFunction m "xe_module_init") mem w
       = Some ((v, memory_ s'), world s')).
Proof.
  intros H G. unfold Init in H. unfold_monad H. rewrite G in H.
  cbv beta iota in H. state_simpl.
  change (negb (0 =? 0)) with false in H. cbv beta iota in H.
  set (s1 := add_event World (EvGetAllVariables 0) (set_world World w1 s)) in H.
  destruct (bind_variables_fields cfg variables s1) as (Eg & _ & Ew & Et).
  pose proof (bind_variables_log cfg variables s1) as El.
  destruct (bind_variables World cfg variables s1) as [mem2 g2 c2 w2 t2 l2].
  subst s1. state_simpl. subst.
  destruct (gen_module_ s) as [m|] eqn:Em; cbv beta iota in H.
  2:{ inversion H; subst; state_simpl; auto. }
  state_simpl.
  destruct (engine_runStaticConstructorsDestructors env m false mem2 w1)
    as [[mem3 w3]|] eqn:E1; cbv beta iota in H.
  2:{ inversion H; subst; state_simpl; auto. }
  state_simpl. cbv beta iota in H.
  destruct (engine_runFunction env m _ mem3 w3) as [[[v mem4] w4]|] eqn:E2;
    cbv beta iota in H.
  2:{ inversion H; subst; state_simpl; auto. }
  inversion H; subst; clear H. state_simpl.
  repeat split; auto. right. exists v, m, mem3, w3. auto.
Qed.

(** [Uninit], case by case on the engine's answers. *)
Lemma Uninit_cases s m o s' :
  gen_module_ s = Some m ->
  Uninit World env s = (o, s') ->
  let f := getFunction m "xe_module_uninit" in
  match engine_runFunction env m f (memory_ s) (world s) with
  | None => o = Crash /\ trace s' = trace s ++ [EvRunFunction f]
  | Some ((_, mem1), w1) =>
      match engine_runStaticConstructorsDestructors env m true mem1 w1 with
      | None =>
          o = Crash /\
          trace s' = trace s ++ [EvRunFunction f;
                                 EvRunStaticConstructorsDestructors true]
      | Some (mem2, w2) =>
          o = Ret 0 /\ memory_ s' = mem2 /\ world s' = w2 /\
          trace s' = trace s ++ [EvRunFunction f;
                                 EvRunStaticConstructorsDestructors true]
      end
  end.
Proof.
  intros G H. unfold Uninit in H. unfold_monad H. rewrite G in H.
  cbv beta iota in H. cbv zeta.
  destruct (engine_runFunction env m _ (memory_ s) (world s))
    as [[[v mem1] w1]|]; cbv beta iota in H; state_simpl.
  2:{ inversion H; subst; state_simpl; auto. }
  destruct (engine_runStaticConstructorsDestructors env m true mem1 w1)
    as [[mem2 w2]|]; cbv beta iota in H; state_simpl;
    inversion H; subst; state_simpl; rewrite <- ?app_assoc; auto.
Qed.

End InitUninit.

(* ================================================================== *)
(** ** Building blocks of [Prepare] *)

Section PrepareBlocks.

Context {World : Type}.
Variable env : Env World.
Variable cfg : Config.

Implicit Types (s : State World).

(** On an existing module [InjectGlobals] always returns 0, having added
    one global and six declarations and bound the six to host functions. *)
Lemma InjectGlobals_run s m :
  gen_module_ s = Some m ->
  exists w',
    InjectGlobals World env cfg s =
    (Ret 0,
     mkState (memory_ s)
       (Some (append_functions injected_functions
                (add_GlobalVariable (xe_memory_base cfg) m)))
       (codegen_ s) w' (trace s ++ injected_events) (log s)).
Proof.
  destruct s as [mem g c w t l]. cbn [gen_module_]. intros ->.
  unfold InjectGlobals, inject. exec_goal.
  repeat match goal with
         | |- context [engine_addGlobalMapping env ?a ?b ?w] =>
             let w' := fresh "w" in
             destruct (engine_addGlobalMapping env a b w) as [[] w'];
             exec_goal
         end.
  eexists. unfold append_functions, add_GlobalVariable, Function_Create.
  cbn [function_list global_list module_identifier target_triple].
  rewrite <- !app_assoc. reflexivity.
Qed.


(** A bitcode dump either fails to open its file, which jumps to the
    cleanup label, or writes the file and goes on. *)
Lemma dump_bitcode_cases (file_name error_message : string) s m o s' :
  gen_module_ s = Some m ->
  dump_bitcode World env file_name error_message s = (o, s') ->
  gen_module_ s' = Some m /\
  ((exists err, err <> "" /\ o = Cleanup /\
      trace s' = trace s ++ [EvRawFdOstream file_name err]) \/
   (o = Ret "" /\ trace s' = trace s ++ dump_events true file_name)).
Proof.
  intros G H. unfold dump_bitcode in H. unfold_monad H.
  destruct (raw_fd_ostream_new env file_name error_message (world s))
    as [err w1].
  cbv beta iota in H. state_simpl.
  destruct err as [|c err]; cbn [string_empty] in H; cbv beta iota in H.
  - state_simpl. rewrite G in H. cbv beta iota in H. state_simpl.
    destruct (WriteBitcodeToFile env m file_name w1) as [[] w2].
    cbv beta iota in H. inversion H; subst; clear H. state_simpl.
    split; auto. right. rewrite <- !app_assoc. auto.
  - inversion H; subst; clear H. state_simpl.
    split; auto. left. exists (String c err). repeat split; auto.
    discriminate.
Qed.

Lemma dump_bitcode_memory (file_name error_message : string) s o s' :
  dump_bitcode World env file_name error_message s = (o, s') ->
  memory_ s' = memory_ s.
Proof.
  destruct s as [mem g c w t l]. intros H.
  unfold dump_bitcode in H. exec_in H.
  destruct (raw_fd_ostream_new env file_name error_message w) as [err w1].
  exec_in H.
  destruct (string_empty err); exec_in H; [|now inversion H].
  destruct g as [m|]; exec_in H; [|now inversion H].
  destruct (WriteBitcodeToFile env m file_name w1) as [[] w2].
  exec_in H. now inversion H.
Qed.

(** The forced-JIT loop asks the engine for every function with a body,
    in module order, and cannot fail. *)
Lemma force_jit_loop (l : list Function) s :
  exists w',
    for_each World l
      (fun fn =>
         if negb (isDeclaration fn) then
           call World (engine_getPointerToFunction env fn)
                (fun _ => EvGetPointerToFunction fn)
         else ret World tt) s =
    (Ret tt,
     mkState (memory_ s) (gen_module_ s) (codegen_ s) w'
       (trace s ++ map EvGetPointerToFunction
                     (filter (fun fn => negb (isDeclaration fn)) l))
       (log s)).
Proof.
  revert s. induction l as [|fn l IH]; intros s; simpl.
  - exists (world s). unfold ret. rewrite app_nil_r. now destruct s.
  - unfold bind at 1. destruct (isDeclaration fn); simpl.
    + unfold ret at 1. apply IH.
    + unfold call at 1.
      destruct (engine_getPointerToFunction env fn (world s)) as [[] w1].
      destruct (IH (add_event World (EvGetPointerToFunction fn)
                      (set_world World w1 s))) as (w' & ->).
      exists w'. state_simpl. now rewrite <- app_assoc.
Qed.

Lemma force_jit_run s m :
  gen_module_ s = Some m ->
  exists w',
    force_jit World env s =
    (Ret tt,
     mkState (memory_ s) (Some m) (codegen_ s) w'
       (trace s ++ jit_events m) (log s)).
Proof.
  intros G. unfold force_jit, bind, the_module. rewrite G.
  destruct (force_jit_loop (function_list m) s) as (w' & ->).
  exists w'. now rewrite G.
Qed.

(** [Init] keeps the module pointer, never jumps to a cleanup label, and
    makes only its own calls, the first being the request for the
    variable symbols. *)
Lemma Init_effect s o s' :
  Init World env cfg s = (o, s') ->
  gen_module_ s' = gen_module_ s /\
  o <> Cleanup /\
  exists rc rest,
    trace s' = trace s ++ EvGetAllVariables rc :: rest /\
    Forall (fun e => is_init_event e = true) rest /\
    Forall (fun e => is_jit_event e = false) rest.
Proof.
  intros H. unfold Init in H. unfold_monad H.
  destruct (sdb_GetAllVariables env (world s)) as [[rc variables] w1].
  cbv beta iota in H. state_simpl.
  destruct (negb (rc =? 0)); cbv beta iota in H.
  { inversion H; subst; clear H. state_simpl.
    repeat split; try discriminate. exists rc, []. auto. }
  set (s1 := add_event World (EvGetAllVariables rc) (set_world World w1 s)) in H.
  destruct (bind_variables_fields cfg variables s1) as (Eg & _ & Ew & Et).
  destruct (bind_variables World cfg variables s1) as [mem2 g2 c2 w2 t2 l2].
  subst s1. state_simpl. subst.
  destruct (gen_module_ s) as [m|] eqn:Em; cbv beta iota in H.
  2:{ inversion H; subst; state_simpl.
      repeat split; try discriminate.
      exists rc, [EvRunStaticConstructorsDestructors false].
      rewrite <- !app_assoc. repeat split; auto. }
  state_simpl.
  destruct (engine_runStaticConstructorsDestructors env m false mem2 w1)
    as [[mem3 w3]|] eqn:E1; cbv beta iota in H.
  2:{ inversion H; subst; state_simpl.
      repeat split; try discriminate.
      exists rc, [EvRunStaticConstructorsDestructors false].
      rewrite <- !app_assoc. repeat split; auto. }
  state_simpl. cbv beta iota in H.
  destruct (engine_runFunction env m _ mem3 w3) as [[[v mem4] w4]|] eqn:E2;
    cbv beta iota in H.
  all: inversion H; subst; clear H; state_simpl.
  all: repeat split; try discriminate.
  all: exists rc, [EvRunStaticConstructorsDestructors false;
                   EvRunFunction (getFunction m "xe_module_init")].
  all: rewrite <- !app_assoc; repeat split; auto.
Qed.


(** Initialization and forced compilation: [Init] runs first; the loop
    runs only after [Init] returned 0, over the module as it then is. *)
Lemma Prepare_initialize_cases s m o s' :
  gen_module_ s = Some m ->
  Prepare_initialize World env cfg s = (o, s') ->
  exists oi s_init ievs,
    Init World env cfg s = (oi, s_init) /\
    trace s_init = trace s ++ ievs /\
    Forall (fun e => is_jit_event e = false) ievs /\
    Forall (fun e => is_init_event e = true) ievs /\
    ievs <> [] /\
    gen_module_ s' = Some m /\
    ((oi = Ret 0 /\ o = Ret tt /\
      trace s' = trace s ++ ievs ++ jit_events m) \/
     (oi <> Ret 0 /\ o = match oi with Crash => Crash | _ => Cleanup end /\
      s' = s_init)).
Proof.
  intros G H. unfold Prepare_initialize in H. unfold bind at 1 in H.
  destruct (Init World env cfg s) as [oi si] eqn:I.
  destruct (Init_effect s oi si I) as (Gi & Hnc & rc & rest & Ti & Fi & Fj).
  exists oi, si, (EvGetAllVariables rc :: rest).
  split; [reflexivity|]. split; [exact Ti|].
  split; [constructor; auto|]. split; [constructor; auto|].
  split; [discriminate|].
  rewrite G in Gi.
  destruct oi as [r| |].
  - unfold bind, XEEXPECTZERO in H.
    destruct (Z.eqb_spec r 0) as [->|Hr].
    + destruct (force_jit_run si m Gi) as (w' & E). rewrite E in H.
      inversion H; subst; clear H. cbn [gen_module_ trace].
      split; [reflexivity|]. left. repeat split.
      rewrite Ti, <- app_assoc. reflexivity.
    + inversion H; subst; clear H. split; [exact Gi|]. right.
      repeat split. congruence.
  - congruence.
  - inversion H; subst; clear H. split; [exact Gi|]. right.
    repeat split. discriminate.
Qed.


End PrepareBlocks.

(* ================================================================== *)
(** ** The courses of [Prepare] *)

Section PrepareShape.

Context {World : Type}.
Variable env : Env World.
Variable cfg : Config.

Implicit Types (s : State World).

Lemma Prepare_finish_shape error_message s m o s' :
  gen_module_ s = Some m ->
  Prepare_finish World env cfg error_message s = (o, s') ->
  exists evs,
    trace s' = trace s ++ evs /\
    finish_shape env cfg o s' evs /\
    exists m', gen_module_ s' = Some m' /\
               (functions_preserved env ->
                function_list m' = function_list m).
Proof.
  destruct s as [mem g c w t l]. cbn [gen_module_ trace]. intros -> H.
  unfold Prepare_finish in H. exec_in H.
  destruct (MaterializeAllPermanently env m error_message w)
    as [[failed [m1 em1]] w1] eqn:EM.
  assert (F1 : functions_preserved env -> function_list m1 = function_list m).
  { intros (P & _). specialize (P m error_message w).
    now rewrite EM in P. }
  exec_in H.
  destruct failed; cbn [negb] in H; exec_in H.
  { inversion H; subst; clear H. cbn [trace gen_module_].
    eexists. split; [reflexivity|]. split; [constructor|eauto]. }
  destruct (PassManager_run env (Prepare_passes cfg)
              (setTargetTriple (getDefaultTargetTriple env) m1) w1)
    as [[m2 w2]|] eqn:EP; exec_in H.
  2:{ inversion H; subst; clear H. cbn [trace gen_module_].
      eexists. split; [rewrite <- !app_assoc; reflexivity|].
      split; [constructor|eauto]. }
  assert (F2 : functions_preserved env -> function_list m2 = function_list m).
  { intros P. rewrite <- (F1 P). destruct P as (_ & P).
    now rewrite (P _ _ _ _ _ EP). }
  assert (Tail : forall S,
             gen_module_ S = Some m2 ->
             trace S = t ++ optimize_events cfg ->
             Prepare_initialize World env cfg S = (o, s') ->
             exists evs,
               trace s' = t ++ evs /\
               finish_shape env cfg o s' evs /\
               exists m', gen_module_ s' = Some m' /\
                          (functions_preserved env ->
                           function_list m' = function_list m)).
  { intros S GS TS HS.
    destruct (Prepare_initialize_cases env cfg S m2 o s' GS HS)
      as (oi & si & ievs & I & Ti & _ & _ & _ & G' & C).
    destruct C as [(-> & -> & T') | (Hoi & -> & ->)].
    - exists (optimize_events cfg ++ ievs ++ jit_events m2).
      split; [rewrite T', TS, <- !app_assoc; reflexivity|].
      split; [|eauto]. eapply fin_done; eauto.
    - exists (optimize_events cfg ++ ievs).
      split; [rewrite Ti, TS, <- !app_assoc; reflexivity|].
      split; [|eauto]. eapply fin_init_failed; eauto. }
  unfold optimize_events in Tail.
  destruct (FLAGS_optimize_ir_modules cfg && FLAGS_dump_module_bitcode cfg)
    eqn:F; exec_in H.
  - destruct (dump_bitcode World env (file_name_for cfg ".bc") em1 _)
      as [od sd] eqn:D in H.
    apply dump_bitcode_cases with (m := m2) in D; [|reflexivity].
    destruct D as (Gd & [(err & Herr & -> & Td) | (-> & Td)]).
    + inversion H; subst; clear H. rewrite Td. cbn [trace].
      eexists. split; [rewrite <- !app_assoc; reflexivity|].
      split; [|eauto]. cbn [app]. now apply fin_dump_failed.
    + cbn [trace] in Td. apply (Tail sd Gd); [|exact H].
      rewrite Td, <- !app_assoc. reflexivity.
  - refine (Tail _ _ _ H); [reflexivity|].
    cbn [trace dump_events]. rewrite <- !app_assoc. reflexivity.
Qed.

End PrepareShape.

Section PrepareBuild.

Context {World : Type}.
Variable env : Env World.
Variable cfg : Config.

Implicit Types (s : State World).

(** Building the module: creation, injection, linking and generation
    always happen, in this order; only a generator failure or a dump file
    that cannot be opened end the block early. *)
Lemma Prepare_build_cases shared_module error_message s o s' :
  Prepare_build World env cfg shared_module error_message s = (o, s') ->
  exists rc tail,
    trace s' = trace s ++ [EvNewModule (module_name_ cfg)]
                 ++ injected_events ++ [EvLinkModules; EvGenerate rc]
                 ++ tail /\
    ((rc <> 0 /\ o = Cleanup /\ tail = []) \/
     (rc = 0 /\ o = Cleanup /\ FLAGS_dump_module_bitcode cfg = true /\
      exists err, err <> "" /\
        tail = [EvRawFdOstream (file_name_for cfg "-preopt.bc") err]) \/
     (rc = 0 /\ (exists em, o = Ret em) /\
      tail = dump_events (FLAGS_dump_module_bitcode cfg)
               (file_name_for cfg "-preopt.bc"))) /\
    (exists m', gen_module_ s' = Some m') /\
    memory_ s' = memory_ s.
Proof.
  destruct s as [mem g c w t l]. intros H.
  unfold Prepare_build in H. exec_in H.
  match type of H with
  | context [InjectGlobals World env cfg ?S] =>
      destruct (InjectGlobals_run env cfg S _ eq_refl) as (w1 & E);
      rewrite E in H; clear E
  end.
  exec_in H. change (0 =? 0) with true in H. exec_in H.
  match type of H with
  | context [Linker_LinkModules env ?a ?b ?e ?w] =>
      destruct (Linker_LinkModules env a b e w) as [[linked em2] w2]
  end.
  exec_in H.
  destruct (ModuleGenerator_Generate env linked w2) as [[rc generated] w3].
  exec_in H.
  exists rc. cbn [trace memory_].
  destruct (Z.eqb_spec rc 0) as [->|Hrc].
  - destruct (FLAGS_dump_module_bitcode cfg) eqn:F.
    + pose proof H as H0.
      apply dump_bitcode_cases with (m := generated) in H; [|reflexivity].
      destruct H as (Gd & [(err & Herr & -> & Td) | (-> & Td)]).
      * exists [EvRawFdOstream (file_name_for cfg "-preopt.bc") err].
        split; [rewrite Td; cbn [trace]; rewrite <- !app_assoc; reflexivity|].
        split; [right; left; eauto 10|].
        split; [eauto|].
        apply (dump_bitcode_memory env _ _ _ _ _ H0).
      * exists (dump_events true (file_name_for cfg "-preopt.bc")).
        split; [rewrite Td; cbn [trace]; rewrite <- !app_assoc; reflexivity|].
        split; [right; right; eauto 10|].
        split; [eauto|].
        apply (dump_bitcode_memory env _ _ _ _ _ H0).
    + inversion H; subst; clear H. exists []. cbn [trace memory_ gen_module_].
      split; [rewrite <- !app_assoc; reflexivity|].
      split; [right; right; eauto 10|]. eauto.
  - inversion H; subst; clear H. exists []. cbn [trace memory_ gen_module_].
    split; [rewrite <- !app_assoc; reflexivity|].
    split; [left; auto|]. eauto.
Qed.


Lemma Prepare_generate_shape s o s' :
  Prepare_generate World env cfg s = (o, s') ->
  exists created evs,
    trace s' = trace s ++ evs /\
    generate_shape cfg o created evs /\
    (if created then exists m', gen_module_ s' = Some m'
     else gen_module_ s' = gen_module_ s) /\
    memory_ s' = memory_ s.
Proof.
  destruct s as [mem g c w t l]. intros H.
  unfold Prepare_generate in H. exec_in H.
  destruct (MemoryBuffer_getFile env thunk_path w) as [[rc buffer] w1].
  exec_in H.
  destruct (Z.eqb_spec rc 0) as [->|Hrc].
  2:{ inversion H; subst; clear H. exists false. eexists.
      cbn [trace gen_module_ memory_].
      split; [reflexivity|]. split; [now constructor|auto]. }
  destruct (ParseBitcodeFile env buffer w1) as [[[shared_module|] em] w2];
    exec_in H.
  2:{ inversion H; subst; clear H. exists false. eexists.
      cbn [trace gen_module_ memory_].
      split; [rewrite <- !app_assoc; reflexivity|].
      split; [constructor|auto]. }
  destruct (sdb_Analyze env w2) as [rc w3]. exec_in H.
  destruct (Z.eqb_spec rc 0) as [->|Hrc].
  2:{ inversion H; subst; clear H. exists false. eexists.
      cbn [trace gen_module_ memory_].
      split; [rewrite <- !app_assoc; reflexivity|].
      split; [now constructor|auto]. }
  assert (Tail : forall S wrc,
             memory_ S = mem ->
             trace S = t ++ [EvGetFile thunk_path 0; EvParseBitcodeFile true;
                             EvAnalyze 0]
                         ++ (if FLAGS_dump_module_map cfg
                             then [EvSdbWrite (file_name_for cfg ".map") wrc]
                             else []) ->
             Prepare_build World env cfg shared_module em S = (o, s') ->
             exists created evs,
               trace s' = t ++ evs /\
               generate_shape cfg o created evs /\
               (if created then exists m', gen_module_ s' = Some m'
                else gen_module_ s' = g) /\
               memory_ s' = mem).
  { intros S wrc MS TS HS.
    destruct (Prepare_build_cases _ _ _ _ _ HS)
      as (rc & tail & T' & C & G' & M').
    exists true, (build_events cfg wrc rc ++ tail).
    split; [rewrite T', TS; unfold build_events;
            rewrite <- !app_assoc; reflexivity|].
    split; [|split; [exact G'|congruence]].
    destruct C as [(Hrc & -> & ->) | [(-> & -> & F & err & Herr & ->)
                                     | (-> & (em' & ->) & ->)]].
    - rewrite app_nil_r. now constructor.
    - now constructor.
    - constructor. }
  cbn [trace gen_module_ memory_].
  destruct (FLAGS_dump_module_map cfg) eqn:F; exec_in H.
  - destruct (sdb_Write env (file_name_for cfg ".map") w3) as [wrc w4].
    exec_in H. refine (Tail _ wrc _ _ H); [reflexivity|].
    cbn [trace]. rewrite <- !app_assoc. reflexivity.
  - refine (Tail _ 0 _ _ H); [reflexivity|].
    cbn [trace]. rewrite <- !app_assoc. reflexivity.
Qed.

(** Every run of [Prepare]: with a generated module it is the second half
    alone; without one it is the module-building block and, when that
    block runs to its end, the second half after it. *)
Lemma Prepare_shape s o s' :
  Prepare World env cfg s = (o, s') ->
  exists evs,
    trace s' = trace s ++ evs /\
    match gen_module_ s with
    | Some _ =>
        exists fo, finish_shape env cfg fo s' evs /\ o = result_of fo
    | None =>
        (exists created,
            generate_shape cfg Cleanup created evs /\ o = Ret 1 /\
            (if created then exists m', gen_module_ s' = Some m'
             else gen_module_ s' = None)) \/
        (exists em gevs fo fevs,
            generate_shape cfg (Ret em) true gevs /\
            finish_shape env cfg fo s' fevs /\
            evs = gevs ++ fevs /\ o = result_of fo)
    end /\
    (gen_module_ s <> None -> gen_module_ s' <> None).
Proof.
  intros H. unfold Prepare, Prepare_body in H.
  destruct (gen_module_ s) as [m|] eqn:G.
  - destruct (Prepare_finish World env cfg "" s) as [fo sf] eqn:E.
    destruct (Prepare_finish_shape env cfg _ _ _ _ _ G E)
      as (evs & T & S & m' & G' & _).
    assert (sf = s' /\ o = result_of fo) as (-> & ->)
      by (destruct fo; inversion H; auto).
    exists evs. split; [exact T|]. split; [eauto|]. congruence.
  - unfold bind in H.
    destruct (Prepare_generate World env cfg s) as [go sg] eqn:E.
    destruct (Prepare_generate_shape _ _ _ E)
      as (created & gevs & T & S & G' & _).
    destruct go as [em| |].
    + assert (created = true) as -> by (inversion S; reflexivity).
      destruct G' as (mg & Gg).
      destruct (Prepare_finish World env cfg em sg) as [fo sf] eqn:E2.
      destruct (Prepare_finish_shape env cfg _ _ _ _ _ Gg E2)
        as (fevs & T2 & S2 & m' & G2 & _).
      assert (sf = s' /\ o = result_of fo) as (-> & ->)
        by (destruct fo; inversion H; auto).
      exists (gevs ++ fevs).
      split; [rewrite T2, T, <- app_assoc; reflexivity|].
      split; [|congruence]. right. exists em, gevs, fo, fevs. auto.
    + inversion H; subst; clear H. exists gevs.
      split; [exact T|]. split; [|congruence]. left. exists created.
      repeat split; auto. destruct created; [exact G'|congruence].
    + inversion S.
Qed.

End PrepareBuild.

(* ================================================================== *)
(** ** Facts about the calls of a run *)

Lemma Forall_jit_events (P : Event -> Prop) (m : Module) :
  (forall fn, P (EvGetPointerToFunction fn)) -> Forall P (jit_events m).
Proof.
  intros H. unfold jit_events. apply Forall_forall. intros e Hin.
  apply in_map_iff in Hin. destruct Hin as (fn & <- & _). apply H.
Qed.

Lemma Forall_init_events (P : Event -> Prop) (evs : list Event) :
  (forall e, is_init_event e = true -> P e) ->
  Forall (fun e => is_init_event e = true) evs -> Forall P evs.
Proof. intros H F. eapply Forall_impl; [|exact F]. exact H. Qed.

Lemma Forall_dump_events (P : Event -> Prop) (on : bool) (f : string) :
  P (EvRawFdOstream f "") -> P (EvWriteBitcodeToFile f) ->
  Forall P (dump_events on f).
Proof. intros H1 H2. destruct on; simpl; auto. Qed.

Lemma Forall_injected_events (P : Event -> Prop) :
  (forall a b, P (EvAddGlobalMapping a b)) -> Forall P injected_events.
Proof. intros H. unfold injected_events. simpl. repeat constructor; apply H. Qed.

Lemma Forall_build_events (P : Event -> Prop) (cfg : Config) (wrc rc : Z) :
  (forall e, is_generation_event e = true -> P e) ->
  Forall P (build_events cfg wrc rc).
Proof.
  intros H. unfold build_events.
  repeat (apply Forall_app; split).
  - repeat constructor; apply H; reflexivity.
  - destruct (FLAGS_dump_module_map cfg); repeat constructor.
    apply H; reflexivity.
  - repeat constructor; apply H; reflexivity.
  - apply Forall_injected_events. intros; apply H; reflexivity.
  - repeat constructor; apply H; reflexivity.
Qed.

Section RunFacts.

Context {World : Type}.
Variable env : Env World.
Variable cfg : Config.

Implicit Types (s : State World).

(** The calls of a run of [Init] are its own, and there is at least one. *)
Lemma Init_events s o s1 ievs :
  Init World env cfg s = (o, s1) ->
  trace s1 = trace s ++ ievs ->
  Forall (fun e => is_init_event e = true) ievs /\ ievs <> [].
Proof.
  intros I T.
  destruct (Init_effect env cfg s o s1 I) as (_ & _ & rc & rest & T' & F & _).
  rewrite T' in T. apply app_inv_head in T. subst ievs.
  split; [constructor; auto|discriminate].
Qed.

(** The second half of [Prepare] with its calls sorted: materialization
    and optimization, then [Init], then forced compilation. *)
Lemma finish_shape_sorted fo s' fevs :
  finish_shape env cfg fo s' fevs ->
  exists oevs ievs jevs,
    fevs = oevs ++ ievs ++ jevs /\
    Forall (fun e => is_optimize_event e = true) oevs /\
    Forall (fun e => is_init_event e = true) ievs /\
    Forall (fun e => is_jit_event e = true) jevs /\
    (exists failed rest, oevs = EvMaterializeAllPermanently failed :: rest) /\
    (fo <> Ret tt -> jevs = []).
Proof.
  intros S. inversion S; subst; clear S.
  - exists [EvMaterializeAllPermanently true], [], [].
    repeat split; eauto; repeat constructor.
  - exists [EvMaterializeAllPermanently false;
            EvPassManagerRun (Prepare_passes cfg)], [], [].
    repeat split; eauto; repeat constructor.
  - exists [EvMaterializeAllPermanently false;
            EvPassManagerRun (Prepare_passes cfg);
            EvRawFdOstream (file_name_for cfg ".bc") err], [], [].
    repeat split; eauto; repeat constructor.
  - match goal with
    | I : Init _ _ _ _ = _, T : trace _ = _ |- _ =>
        destruct (Init_events _ _ _ _ I T) as (Fi & _)
    end.
    exists (optimize_events cfg), ievs, [].
    rewrite app_nil_r. repeat split; eauto.
    + unfold optimize_events. apply Forall_app. split.
      * repeat constructor.
      * apply Forall_dump_events; reflexivity.
    + unfold optimize_events. simpl. eauto.
  - match goal with
    | I : Init _ _ _ _ = _, T : trace _ = _ |- _ =>
        destruct (Init_events _ _ _ _ I T) as (Fi & _)
    end.
    exists (optimize_events cfg), ievs, (jit_events mf).
    repeat split; eauto.
    + unfold optimize_events. apply Forall_app. split.
      * repeat constructor.
      * apply Forall_dump_events; reflexivity.
    + apply Forall_jit_events. reflexivity.
    + unfold optimize_events. simpl. eauto.
    + congruence.
Qed.

End RunFacts.

Section PrepareEvents.

Context {World : Type}.
Variable env : Env World.
Variable cfg : Config.

Implicit Types (s : State World).

(** The calls of the module-building block are generation calls, but for
    the pre-optimization dump at its end. *)
Lemma generate_shape_events o created gevs :
  generate_shape cfg o created gevs ->
  exists bevs devs,
    gevs = bevs ++ devs /\
    Forall (fun e => is_generation_event e = true) bevs /\
    (devs = [] \/
     devs = dump_events true (file_name_for cfg "-preopt.bc") \/
     exists err, err <> "" /\ o = Cleanup /\
       devs = [EvRawFdOstream (file_name_for cfg "-preopt.bc") err]) /\
    count_generate bevs = (if created then 1 else 0)%nat.
Proof.
  assert (B : forall wrc rc, count_generate (build_events cfg wrc rc) = 1%nat).
  { intros. unfold build_events.
    destruct (FLAGS_dump_module_map cfg); reflexivity. }
  intros S. inversion S; subst; clear S.
  - eexists _, []. rewrite app_nil_r.
    repeat split; [repeat constructor| auto ..].
  - eexists _, []. rewrite app_nil_r.
    repeat split; [repeat constructor| auto ..].
  - eexists _, []. rewrite app_nil_r.
    repeat split; [repeat constructor| auto ..].
  - eexists _, []. rewrite app_nil_r.
    repeat split; [apply Forall_build_events; auto| auto ..].
  - eexists _, _. split; [reflexivity|].
    repeat split; [apply Forall_build_events; auto| eauto 10 | auto].
  - eexists _, _. split; [reflexivity|].
    repeat split; [apply Forall_build_events; auto| | auto].
    destruct (FLAGS_dump_module_bitcode cfg); auto.
Qed.





End PrepareEvents.


Section PrepareOrder.

Context {World : Type}.
Variable env : Env World.
Variable cfg : Config.

Implicit Types (s : State World).

Lemma build_events_sdb_write wrc rc f rc' :
  In (EvSdbWrite f rc') (build_events cfg wrc rc) ->
  exists post,
    build_events cfg wrc rc =
    [EvGetFile thunk_path 0; EvParseBitcodeFile true; EvAnalyze 0]
    ++ EvSdbWrite f rc' :: EvNewModule (module_name_ cfg) :: post.
Proof.
  unfold build_events.
  destruct (FLAGS_dump_module_map cfg); simpl; intros H;
    repeat (destruct H as [H|H]; [try discriminate|]); try contradiction.
  inversion H; subst. eexists. reflexivity.
Qed.

Lemma generate_shape_sdb_write o created gevs f rc :
  generate_shape cfg o created gevs ->
  In (EvSdbWrite f rc) gevs ->
  exists pre post,
    gevs = pre ++ EvSdbWrite f rc :: EvNewModule (module_name_ cfg) :: post.
Proof.
  intros S Hin. inversion S; subst; clear S.
  1-3: simpl in Hin;
    repeat (destruct Hin as [Hin|Hin]; [discriminate|]); destruct Hin.
  - destruct (build_events_sdb_write _ _ _ _ Hin) as (post & ->). eauto.
  - apply in_app_or in Hin. destruct Hin as [Hin|Hin].
    + destruct (build_events_sdb_write _ _ _ _ Hin) as (post & ->).
      exists [EvGetFile thunk_path 0; EvParseBitcodeFile true; EvAnalyze 0].
      eexists. rewrite <- app_assoc. reflexivity.
    + simpl in Hin. destruct Hin as [Hin|[]]. discriminate.
  - apply in_app_or in Hin. destruct Hin as [Hin|Hin].
    + destruct (build_events_sdb_write _ _ _ _ Hin) as (post & ->).
      exists [EvGetFile thunk_path 0; EvParseBitcodeFile true; EvAnalyze 0].
      eexists. rewrite <- app_assoc. reflexivity.
    + unfold dump_events in Hin.
      destruct (FLAGS_dump_module_bitcode cfg); simpl in Hin;
        repeat (destruct Hin as [Hin|Hin]; [discriminate|]); destruct Hin.
Qed.

(** In the second half, a dump file that cannot be opened is the last
    thing that happens. *)
Lemma finish_shape_failed_open fo s' fevs f err :
  finish_shape env cfg fo s' fevs ->
  In (EvRawFdOstream f err) fevs -> err <> "" ->
  fo = Cleanup /\ exists pre, fevs = pre ++ [EvRawFdOstream f err].
Proof.
  assert (O : In (EvRawFdOstream f err) (optimize_events cfg) -> err = "").
  { unfold optimize_events, dump_events.
    destruct (FLAGS_optimize_ir_modules cfg && FLAGS_dump_module_bitcode cfg);
      simpl; intros H;
      repeat (destruct H as [H|H]; [try discriminate; congruence|]);
      destruct H. }
  assert (I : forall s o s1 ievs,
             Init World env cfg s = (o, s1) -> trace s1 = trace s ++ ievs ->
             ~ In (EvRawFdOstream f err) ievs).
  { intros s o s1 ievs HI HT Hin.
    destruct (Init_events env cfg s o s1 ievs HI HT) as (F & _).
    rewrite Forall_forall in F. specialize (F _ Hin). discriminate. }
  assert (J : forall m, ~ In (EvRawFdOstream f err) (jit_events m)).
  { intros m Hin. unfold jit_events in Hin. apply in_map_iff in Hin.
    destruct Hin as (? & ? & _). discriminate. }
  intros S Hin Herr. inversion S; subst; clear S.
  - simpl in Hin. destruct Hin as [Hin|[]]. discriminate.
  - simpl in Hin. destruct Hin as [Hin|[Hin|[]]]; discriminate.
  - simpl in Hin. destruct Hin as [Hin|[Hin|[Hin|[]]]]; try discriminate.
    inversion Hin; subst. split; [reflexivity|].
    exists [EvMaterializeAllPermanently false;
            EvPassManagerRun (Prepare_passes cfg)]. reflexivity.
  - apply in_app_or in Hin. destruct Hin as [Hin|Hin].
    + now apply O in Hin.
    + exfalso. eapply I; eauto.
  - apply in_app_or in Hin. destruct Hin as [Hin|Hin].
    + now apply O in Hin.
    + apply in_app_or in Hin. destruct Hin as [Hin|Hin]; exfalso.
      * eapply I; eauto.
      * eapply J; eauto.
Qed.

Lemma finish_shape_no_sdb_write fo s' fevs f rc :
  finish_shape env cfg fo s' fevs -> ~ In (EvSdbWrite f rc) fevs.
Proof.
  intros S Hin.
  destruct (finish_shape_sorted env cfg fo s' fevs S)
    as (oevs & ievs & jevs & -> & Fo & Fi & Fj & _).
  rewrite Forall_forall in Fo, Fi, Fj.
  apply in_app_or in Hin. destruct Hin as [Hin|Hin];
    [specialize (Fo _ Hin); discriminate|].
  apply in_app_or in Hin. destruct Hin as [Hin|Hin];
    [specialize (Fi _ Hin); discriminate|specialize (Fj _ Hin); discriminate].
Qed.

Lemma generate_shape_failed_open o created gevs f err :
  generate_shape cfg o created gevs ->
  In (EvRawFdOstream f err) gevs -> err <> "" ->
  o = Cleanup /\ exists pre, gevs = pre ++ [EvRawFdOstream f err].
Proof.
  intros S Hin Herr.
  destruct (generate_shape_events cfg o created gevs S)
    as (bevs & devs & -> & F & D & _).
  apply in_app_or in Hin. destruct Hin as [Hin|Hin].
  - rewrite Forall_forall in F. specialize (F _ Hin). discriminate.
  - destruct D as [-> | [-> | (err' & _ & -> & ->)]]; simpl in Hin.
    + destruct Hin.
    + destruct Hin as [Hin|[Hin|[]]]; try discriminate.
      inversion Hin; subst. congruence.
    + destruct Hin as [Hin|[]]. inversion Hin; subst. eauto.
Qed.

(** The module-building block makes no call of [Init] and compiles
    nothing. *)
Lemma generate_shape_plain o created gevs :
  generate_shape cfg o created gevs ->
  Forall (fun e => is_jit_event e = false) gevs /\
  Forall (fun e => is_init_event e = false) gevs.
Proof.
  intros S.
  destruct (generate_shape_events cfg o created gevs S)
    as (bevs & devs & -> & F & D & _).
  assert (Fd : Forall (fun e => is_jit_event e = false /\
                                is_init_event e = false) devs).
  { destruct D as [-> | [-> | (err' & _ & _ & ->)]]; repeat constructor. }
  split; apply Forall_app; split.
  - eapply Forall_impl; [|exact F]. intros [] E; try discriminate; reflexivity.
  - eapply Forall_impl; [|exact Fd]. now intros e (? & ?).
  - eapply Forall_impl; [|exact F]. intros [] E; try discriminate; reflexivity.
  - eapply Forall_impl; [|exact Fd]. now intros e (? & ?).
Qed.

Lemma optimize_events_plain :
  Forall (fun e => is_jit_event e = false) (optimize_events cfg) /\
  Forall (fun e => is_init_event e = false) (optimize_events cfg).
Proof.
  unfold optimize_events, dump_events.
  destruct (FLAGS_optimize_ir_modules cfg && FLAGS_dump_module_bitcode cfg);
    split; repeat constructor.
Qed.

Lemma count_generate_app l1 l2 :
  count_generate (l1 ++ l2) = (count_generate l1 + count_generate l2)%nat.
Proof. unfold count_generate. now rewrite filter_app, length_app. Qed.

Lemma count_generate_none l :
  Forall (fun e => is_generate_call e = false) l -> count_generate l = 0%nat.
Proof.
  unfold count_generate. induction 1 as [|e l He _ IH]; simpl; auto.
  now rewrite He.
Qed.

Lemma finish_shape_no_generation fo s' fevs :
  finish_shape env cfg fo s' fevs ->
  Forall (fun e => is_generation_event e = false) fevs.
Proof.
  intros S.
  destruct (finish_shape_sorted env cfg fo s' fevs S)
    as (oevs & ievs & jevs & -> & Fo & Fi & Fj & _).
  repeat (apply Forall_app; split);
    (eapply Forall_impl; [|eassumption]);
    intros [] E; try discriminate; reflexivity.
Qed.

End PrepareOrder.

(* ================================================================== *)
(** ** Properties of [Init] and [Uninit] *)

(** C10.  The binding loop of [Init] performs exactly one 32-bit store per
    variable symbol bound to a non-function export, at the symbol's
    address and in symbol order; every byte outside those words, and every
    other part of the object, is as before. *)
Theorem Init_binding_frame :
  forall (World : Type) (cfg : Config) (variables : list VariableSymbol)
         (s : State World),
    let s' := bind_variables World cfg variables s in
    memory_ s' = bind_memory (XE_CPU_BIGENDIAN cfg) variables (memory_ s) /\
    (forall q,
        (forall var, In var variables -> writes_slot var = true ->
           ~ in_word (address var) q) ->
        memory_ s' q = memory_ s q) /\
    gen_module_ s' = gen_module_ s /\ world s' = world s /\
    trace s' = trace s.
Proof.
  intros World cfg variables s s'. subst s'.
  destruct (bind_variables_fields cfg variables s) as (Hg & _ & Hw & Ht).
  repeat split; auto.
  - apply bind_variables_memory.
  - intros q H. rewrite bind_variables_memory. now apply bind_memory_frame.
Qed.

Lemma Init_binding_frame_example :
  let s' := bind_variables unit cfg_plain sample_variables constructed in
  memory_ s' 4108 = 0 /\ guest_load_u32 (memory_ s') 4096 = 305419896.
Proof.
  pose proof (Init_binding_frame unit cfg_plain sample_variables constructed)
    as (_ & H & _).
  split.
  - apply (H 4108). intros var Hin W.
    unfold in_word.
    repeat (destruct Hin as [<- | Hin]; [simpl in *; try discriminate; lia|]).
    destruct Hin.
  - reflexivity.
Defined.

(** C7.  A variable symbol bound to a function export makes the loop of
    [Init] do nothing: its turn leaves the whole state (so guest memory at
    its address too) as it was, the loop acts as if the symbol were not in
    the list, and a byte of its word changes only if another symbol's
    store covers it. *)
Theorem Init_skips_function_export :
  forall (World : Type) (cfg : Config) (var : VariableSymbol)
         (ke : KernelExport),
    kernel_export var = Some ke ->
    ke_type ke = Function_ ->
    (forall s : State World, bind_variable World cfg s var = s) /\
    (forall l1 l2 (s : State World),
        bind_variables World cfg (l1 ++ var :: l2) s =
        bind_variables World cfg (l1 ++ l2) s) /\
    (forall l1 l2 (s : State World) q,
        in_word (address var) q ->
        (forall v, In v (l1 ++ l2) -> writes_slot v = true ->
           ~ in_word (address v) q) ->
        memory_ (bind_variables World cfg (l1 ++ var :: l2) s) q
          = memory_ s q).
Proof.
  intros World cfg var ke Hk Ht.
  assert (Hstep : forall s : State World, bind_variable World cfg s var = s).
  { intros s. unfold bind_variable. now rewrite Hk, Ht. }
  assert (Hloop : forall l1 l2 (s : State World),
             bind_variables World cfg (l1 ++ var :: l2) s =
             bind_variables World cfg (l1 ++ l2) s).
  { intros l1 l2 s. unfold bind_variables.
    rewrite !fold_left_app. simpl. now rewrite Hstep. }
  repeat split; auto.
  intros l1 l2 s q _ H. rewrite Hloop, bind_variables_memory.
  now apply bind_memory_frame.
Qed.

Lemma Init_skips_function_export_example :
  bind_variable unit cfg_plain constructed var_close = constructed.
Proof.
  apply (Init_skips_function_export unit cfg_plain var_close export_close);
    reflexivity.
Defined.

(** C2.  When [Init] returns, the word at the address of a variable symbol
    bound to an implemented non-function export holds the export's value
    in guest (big-endian) byte order, whatever the host's byte order;
    this is for a symbol list the database handed over, a word no later
    symbol stores over, and entry points that leave the word alone. *)
Theorem Init_writes_implemented_export :
  forall (World : Type) (env : Env World) (cfg : Config) (s s' : State World)
         (r : Z) (l1 l2 : list VariableSymbol) (var : VariableSymbol)
         (ke : KernelExport) (w1 : World),
    Init World env cfg s = (Ret r, s') ->
    sdb_GetAllVariables env (world s) = ((0, l1 ++ var :: l2), w1) ->
    kernel_export var = Some ke ->
    ke_type ke = Variable_ ->
    is_implemented ke = true ->
    untouched_by l2 (address var) ->
    engine_keeps_word env (address var) ->
    guest_bytes_at (memory_ s') (address var) (variable_ptr ke) /\
    guest_load_u32 (memory_ s') (address var) = uint32 (variable_ptr ke).
Proof.
  intros World env cfg s s' r l1 l2 var ke w1 HI HG Hk Ht Hi Hu (Hc & Hf).
  destruct (Init_returns env cfg s r s' _ w1 HI HG)
    as (m & mem3 & w3 & v & _ & E1 & E2 & _).
  assert (W : writes_slot var = true) by (unfold writes_slot; now rewrite Hk, Ht).
  assert (V : slot_value var = variable_ptr ke)
    by (unfold slot_value; now rewrite Hk, Hi).
  assert (B : guest_bytes_at (memory_ s') (address var) (variable_ptr ke)).
  { rewrite <- V.
    eapply guest_bytes_at_ext; [|apply (bind_memory_word cfg l1 var l2); eauto].
    intros q Hq. rewrite (Hf _ _ _ _ _ _ _ E2 q Hq).
    apply (Hc _ _ _ _ _ _ E1 q Hq). }
  split; [exact B | now apply guest_load_of_bytes].
Qed.

Lemma scripted_engine_keeps_word (sc : Script) (p : Z) :
  engine_keeps_word (scripted sc) p.
Proof.
  split.
  - intros m d mem w mem' w' E q _. simpl in E. inversion E. reflexivity.
  - intros m f mem w v mem' w' E q _. simpl in E.
    destruct f; inversion E. reflexivity.
Qed.

Lemma Init_writes_implemented_export_example :
  guest_bytes_at
    (memory_ (snd (Init unit (scripted sc_ok) cfg_plain with_thunk)))
    4096 305419896 /\
  guest_load_u32
    (memory_ (snd (Init unit (scripted sc_ok) cfg_plain with_thunk))) 4096
    = uint32 305419896.
Proof.
  apply (Init_writes_implemented_export unit (scripted sc_ok) cfg_plain
           with_thunk (snd (Init unit (scripted sc_ok) cfg_plain with_thunk))
           0 [] [var_debugger; var_close; var_plain] var_time export_time tt);
    try reflexivity.
  - intros var Hin W.
    repeat (destruct Hin as [<- | Hin]; [simpl in *; try discriminate; lia|]).
    destruct Hin.
  - apply scripted_engine_keeps_word.
Defined.

(** C6.  For a variable symbol bound to a non-function export that is not
    implemented, [Init] logs exactly one warning naming the export, at the
    symbol's turn; the symbol never makes [Init] fail, since [Init] then
    returns what the entry point returned, cast to [int], unless the
    engine dies; and when
    [Init] returns, the symbol's word holds the sentinel 0xDEADBEEF in
    guest byte order (for a word no later symbol stores over and entry
    points that leave it alone). *)
Theorem Init_writes_sentinel_for_unimplemented_export :
  forall (World : Type) (env : Env World) (cfg : Config) (s s' : State World)
         (o : Outcome Z) (l1 l2 : list VariableSymbol) (var : VariableSymbol)
         (ke : KernelExport) (w1 : World),
    Init World env cfg s = (o, s') ->
    sdb_GetAllVariables env (world s) = ((0, l1 ++ var :: l2), w1) ->
    kernel_export var = Some ke ->
    ke_type ke = Variable_ ->
    is_implemented ke = false ->
    log s' = log s ++ warnings_of l1 ++ [warning_no_value (ke_name ke)]
                   ++ warnings_of l2 /\
    (o = Crash \/
     exists v m mem w,
       o = Ret (static_cast_int v) /\ gen_module_ s = Some m /\
       engine_runFunction env m (getFunction m "xe_module_init") mem w
         = Some ((v, memory_ s'), world s')) /\
    (forall r, o = Ret r ->
       untouched_by l2 (address var) ->
       engine_keeps_word env (address var) ->
       guest_bytes_at (memory_ s') (address var) DEADBEEF /\
       guest_load_u32 (memory_ s') (address var) = DEADBEEF).
Proof.
  intros World env cfg s s' o l1 l2 var ke w1 HI HG Hk Ht Hi.
  destruct (Init_after_binding env cfg s o s' _ w1 HI HG) as (Hl & _ & Ho).
  assert (U : unimplemented var = true)
    by (unfold unimplemented; now rewrite Hk, Ht, Hi).
  split; [|split]; auto.
  - rewrite Hl. f_equal.
    change (var :: l2) with ([var] ++ l2). rewrite !warnings_of_app.
    unfold warnings_of at 2. simpl. rewrite U. simpl.
    unfold export_name. now rewrite Hk.
  - intros r -> Hu (Hc & Hf).
    destruct (Init_returns env cfg s r s' _ w1 HI HG)
      as (m & mem3 & w3 & v & _ & E1 & E2 & _).
    assert (W : writes_slot var = true)
      by (unfold writes_slot; now rewrite Hk, Ht).
    assert (V : slot_value var = DEADBEEF)
      by (unfold slot_value; now rewrite Hk, Hi).
    assert (B : guest_bytes_at (memory_ s') (address var) DEADBEEF).
    { rewrite <- V.
      eapply guest_bytes_at_ext;
        [|apply (bind_memory_word cfg l1 var l2); eauto].
      intros q Hq. rewrite (Hf _ _ _ _ _ _ _ E2 q Hq).
      apply (Hc _ _ _ _ _ _ E1 q Hq). }
    split; [exact B|].
    rewrite (guest_load_of_bytes _ _ _ B). reflexivity.
Qed.

Lemma Init_writes_sentinel_for_unimplemented_export_example :
  let s' := snd (Init unit (scripted sc_ok) cfg_plain with_thunk) in
  log s' = ["WARNING: imported a variable with no value: KdDebuggerEnabled"] /\
  guest_load_u32 (memory_ s') 4100 = DEADBEEF.
Proof.
  destruct (Init_writes_sentinel_for_unimplemented_export unit
              (scripted sc_ok) cfg_plain with_thunk
              (snd (Init unit (scripted sc_ok) cfg_plain with_thunk))
              (Ret 0) [var_time] [var_close; var_plain] var_debugger
              export_debugger tt)
    as (Hl & _ & Hm); try reflexivity.
  split; [exact Hl|].
  apply (Hm 0); try reflexivity.
  - intros var Hin W.
    repeat (destruct Hin as [<- | Hin]; [simpl in *; try discriminate; lia|]).
    destruct Hin.
  - apply scripted_engine_keeps_word.
Defined.

(** C5, as the code has it.  [Uninit] looks the static-deinitialization
    entry point up by name and hands the result of the lookup to the
    engine's [runFunction] without testing it, so the engine is called
    with a null function when the entry point is absent.  When that call
    returns it runs the engine's static destructors, and when both calls
    return it returns 0.  Nothing records whether [Init] completed; all
    [Uninit] needs is that a generated module exists. *)
Theorem Uninit_runs_entry_point_unconditionally :
  forall (World : Type) (env : Env World) (s s' : State World) (m : Module)
         (o : Outcome Z),
    gen_module_ s = Some m ->
    Uninit World env s = (o, s') ->
    let f := getFunction m "xe_module_uninit" in
    (exists rest, trace s' = trace s ++ EvRunFunction f :: rest) /\
    (o = Ret 0 \/ o = Crash) /\
    (forall v mem1 w1 mem2 w2,
        engine_runFunction env m f (memory_ s) (world s)
          = Some ((v, mem1), w1) ->
        engine_runStaticConstructorsDestructors env m true mem1 w1
          = Some (mem2, w2) ->
        o = Ret 0 /\ memory_ s' = mem2 /\
        trace s' = trace s ++ [EvRunFunction f;
                               EvRunStaticConstructorsDestructors true]).
Proof.
  intros World env s s' m o G H f.
  pose proof (Uninit_cases env s m o s' G H) as C. cbv zeta in C. fold f in C.
  destruct (engine_runFunction env m f (memory_ s) (world s))
    as [[[v mem1] w1]|] eqn:E1.
  - destruct (engine_runStaticConstructorsDestructors env m true mem1 w1)
      as [[mem2 w2]|] eqn:E2.
    + destruct C as (-> & Hm & _ & Ht).
      split; [eexists; exact Ht|]. split; [now left|].
      intros ? ? ? ? ? F1 F2. inversion F1; subst.
      rewrite E2 in F2. inversion F2; subst. auto.
    + destruct C as (-> & Ht).
      split; [eexists; exact Ht|]. split; [now right|].
      intros ? ? ? ? ? F1 F2. inversion F1; subst.
      rewrite E2 in F2. discriminate F2.
  - destruct C as (-> & Ht).
    split; [eexists; exact Ht|]. split; [now right|].
    intros; discriminate.
Qed.

Lemma Uninit_runs_entry_point_unconditionally_example :
  fst (Uninit unit (scripted sc_ok) with_thunk) = Ret 0 /\
  trace (snd (Uninit unit (scripted sc_ok) with_thunk)) =
    [EvRunFunction (Some (mkFunction "xe_module_uninit" VoidTy [] false));
     EvRunStaticConstructorsDestructors true].
Proof.
  destruct (Uninit_runs_entry_point_unconditionally unit (scripted sc_ok)
              with_thunk (snd (Uninit unit (scripted sc_ok) with_thunk))
              thunk_module (fst (Uninit unit (scripted sc_ok) with_thunk)))
    as (_ & _ & H); try reflexivity.
  destruct (H 0 zero_memory tt zero_memory tt) as (Ho & _ & Ht);
    try reflexivity.
  split; [exact Ho | exact Ht].
Defined.

(** C5, as stated, fails.  On a module without [xe_module_uninit] the
    engine's [runFunction] is still called (with a null function); and on
    an object whose preparation never created a module, [Uninit]
    dereferences the null module pointer. *)
Lemma Uninit_calls_absent_entry_point :
  ~ invoked_only_if_present (mkModule "game" "" [] [sub_1000])
      "xe_module_uninit"
      (trace (snd (Uninit unit (scripted sc_ok) with_bare_module))) /\
  fst (Uninit unit (scripted sc_ok) constructed) = Crash.
Proof.
  split.
  - intros H. apply (H eq_refl None). simpl. auto.
  - reflexivity.
Qed.

(* ================================================================== *)
(** ** Properties of [Prepare] *)

(** C8.  On an object without a generated module, when the runtime
    support module loads and the analysis of the symbol database fails,
    [Prepare] returns 1, the module pointer is still null, and the
    analysis is the last call made: no module creation, injection,
    linking, generation, optimization, compilation or [Init]. *)
Theorem Prepare_analysis_failure_creates_no_module :
  forall (World : Type) (env : Env World) (cfg : Config) (s : State World)
         (buffer : string) (shared_module : Module) (error_message : string)
         (rc : Z) (w1 w2 w3 : World),
    gen_module_ s = None ->
    MemoryBuffer_getFile env thunk_path (world s) = ((0, buffer), w1) ->
    ParseBitcodeFile env buffer w1 = ((Some shared_module, error_message), w2) ->
    sdb_Analyze env w2 = (rc, w3) ->
    rc <> 0 ->
    exists s',
      Prepare World env cfg s = (Ret 1, s') /\
      gen_module_ s' = None /\
      trace s' = trace s ++ [EvGetFile thunk_path 0; EvParseBitcodeFile true;
                             EvAnalyze rc] /\
      memory_ s' = memory_ s /\ codegen_ s' = codegen_ s /\ log s' = log s.
Proof.
  intros World env cfg [mem g c w t l] buffer shared_module error_message
         rc w1 w2 w3 G H1 H2 H3 Hrc.
  cbn [gen_module_ world] in *. subst g.
  unfold Prepare, Prepare_body. cbn [gen_module_].
  unfold Prepare_generate. exec_goal.
  rewrite H1. exec_goal. change (0 =? 0) with true. exec_goal.
  rewrite H2. exec_goal. rewrite H3. exec_goal.
  apply Z.eqb_neq in Hrc. rewrite Hrc.
  eexists. split; [reflexivity|]. cbn [gen_module_ trace memory_ codegen_ log].
  rewrite <- !app_assoc. auto 10.
Qed.

Lemma Prepare_analysis_failure_creates_no_module_example :
  exists s',
    Prepare unit (scripted sc_bad_image) cfg_plain constructed = (Ret 1, s') /\
    gen_module_ s' = None /\
    trace s' = trace constructed
                 ++ [EvGetFile thunk_path 0; EvParseBitcodeFile true;
                     EvAnalyze 7] /\
    memory_ s' = memory_ constructed /\
    codegen_ s' = codegen_ constructed /\ log s' = log constructed.
Proof.
  apply (Prepare_analysis_failure_creates_no_module unit
           (scripted sc_bad_image) cfg_plain constructed "BC" thunk_module ""
           7 tt tt tt); try reflexivity.
  lia.
Defined.



(** C3, as the code has it.  What writing the symbol map returns is
    never looked at: whatever it is, the next call creates the module.
    A bitcode dump (before or after optimization) whose file cannot be
    opened is different: the failed open is the last call [Prepare]
    makes, and [Prepare] returns 1. *)
Theorem Prepare_dump_failures :
  forall (World : Type) (env : Env World) (cfg : Config) (s s' : State World)
         (o : Outcome Z) (evs : list Event),
    Prepare World env cfg s = (o, s') ->
    trace s' = trace s ++ evs ->
    (forall f rc, In (EvSdbWrite f rc) evs ->
       exists pre post,
         evs = pre ++ EvSdbWrite f rc
                   :: EvNewModule (module_name_ cfg) :: post) /\
    (forall f err, err <> "" -> In (EvRawFdOstream f err) evs ->
       o = Ret 1 /\ exists pre, evs = pre ++ [EvRawFdOstream f err]).
Proof.
  intros World env cfg s s' o evs H T.
  destruct (Prepare_shape env cfg s o s' H) as (evs' & T' & C & _).
  rewrite T' in T. apply app_inv_head in T. subst evs'.
  destruct (gen_module_ s).
  - destruct C as (fo & S & ->). split.
    + intros f rc Hin.
      destruct (finish_shape_no_sdb_write env cfg _ _ _ _ _ S Hin).
    + intros f err Herr Hin.
      destruct (finish_shape_failed_open env cfg _ _ _ _ _ S Hin Herr)
        as (-> & P). auto.
  - destruct C as [(created & S & -> & _)
                  | (em & gevs & fo & fevs & S & S2 & -> & ->)].
    + split.
      * intros f rc Hin. eapply generate_shape_sdb_write; eauto.
      * intros f err Herr Hin.
        destruct (generate_shape_failed_open cfg _ _ _ _ _ S Hin Herr)
          as (_ & P). auto.
    + split.
      * intros f rc Hin. apply in_app_or in Hin. destruct Hin as [Hin|Hin].
        -- destruct (generate_shape_sdb_write cfg _ _ _ _ _ S Hin)
             as (pre & post & ->).
           exists pre. eexists. rewrite <- app_assoc. reflexivity.
        -- destruct (finish_shape_no_sdb_write env cfg _ _ _ _ _ S2 Hin).
      * intros f err Herr Hin. apply in_app_or in Hin.
        destruct Hin as [Hin|Hin].
        -- destruct (generate_shape_failed_open cfg _ _ _ _ _ S Hin Herr)
             as (E & _). discriminate E.
        -- destruct (finish_shape_failed_open env cfg _ _ _ _ _ S2 Hin Herr)
             as (-> & pre & ->).
           split; [reflexivity|]. exists (gevs ++ pre).
           now rewrite app_assoc.
Qed.

Lemma Prepare_dump_failures_example :
  fst (Prepare unit (scripted sc_no_dump_file) cfg_dumps constructed) = Ret 1.
Proof.
  destruct (Prepare_dump_failures unit (scripted sc_no_dump_file) cfg_dumps
              constructed
              (snd (Prepare unit (scripted sc_no_dump_file) cfg_dumps
                      constructed))
              (fst (Prepare unit (scripted sc_no_dump_file) cfg_dumps
                      constructed))
              (trace (snd (Prepare unit (scripted sc_no_dump_file) cfg_dumps
                             constructed))))
    as (_ & H); [vm_compute; reflexivity | reflexivity |].
  destruct (H "dump/game-preopt.bc" "Permission denied") as (Ho & _).
  - discriminate.
  - vm_compute. tauto.
  - exact Ho.
Defined.

(** C3, as stated, fails.  With bitcode dumps on and a dump directory
    that cannot be written, everything else succeeding, [Prepare] stops
    at the failed open of the pre-optimization dump and returns 1:
    nothing follows the failure. *)
Lemma Prepare_dump_failure_is_fatal :
  ~ dump_failure_recovered
      (trace (snd (Prepare unit (scripted sc_no_dump_file) cfg_dumps
                     constructed))) /\
  fst (Prepare unit (scripted sc_no_dump_file) cfg_dumps constructed) = Ret 1.
Proof.
  split; [|vm_compute; reflexivity].
  intros H.
  apply (H (removelast
              (trace (snd (Prepare unit (scripted sc_no_dump_file) cfg_dumps
                             constructed))))
           "dump/game-preopt.bc" "Permission denied" []).
  - vm_compute. reflexivity.
  - discriminate.
  - reflexivity.
Qed.

(** C4, as the code has it.  [Prepare] runs [Init] first and forces
    compilation afterwards.  A run that returns 0 ends with a run of
    [Init] that returned 0, followed by one compilation request per
    function with a body of the module as it then stands; nothing is
    compiled before or during [Init].  A run that does not return 0
    forces no compilation at all. *)
Theorem Prepare_initializes_then_compiles :
  forall (World : Type) (env : Env World) (cfg : Config) (s s' : State World)
         (o : Outcome Z) (evs : list Event),
    Prepare World env cfg s = (o, s') ->
    trace s' = trace s ++ evs ->
    (o = Ret 0 ->
     exists pre ievs mf s_mid s_init,
       Init World env cfg s_mid = (Ret 0, s_init) /\
       trace s_init = trace s_mid ++ ievs /\
       ievs <> [] /\
       gen_module_ s' = Some mf /\
       evs = pre ++ ievs ++ jit_events mf /\
       Forall (fun e => is_jit_event e = false) (pre ++ ievs) /\
       Forall (fun e => is_init_event e = false) pre) /\
    (o <> Ret 0 -> Forall (fun e => is_jit_event e = false) evs).
Proof.
  intros World env cfg s s' o evs H T.
  destruct (Prepare_shape env cfg s o s' H) as (evs' & T' & C & _).
  rewrite T' in T. apply app_inv_head in T. subst evs'.
  assert (Fin : forall fo fevs gevs,
             finish_shape env cfg fo s' fevs ->
             Forall (fun e => is_jit_event e = false) gevs ->
             Forall (fun e => is_init_event e = false) gevs ->
             (result_of fo = Ret 0 ->
              exists pre ievs mf s_mid s_init,
                Init World env cfg s_mid = (Ret 0, s_init) /\
                trace s_init = trace s_mid ++ ievs /\
                ievs <> [] /\
                gen_module_ s' = Some mf /\
                gevs ++ fevs = pre ++ ievs ++ jit_events mf /\
                Forall (fun e => is_jit_event e = false) (pre ++ ievs) /\
                Forall (fun e => is_init_event e = false) pre) /\
             (result_of fo <> Ret 0 ->
              Forall (fun e => is_jit_event e = false) (gevs ++ fevs))).
  { intros fo fevs gevs S Gj Gi.
    destruct (optimize_events_plain cfg) as (Oj & Oi).
    split.
    - intros R. inversion S; subst; clear S; try discriminate R.
      { destruct oi; discriminate R. }
      match goal with
      | I : Init _ _ _ _ = _, T : trace _ = _ |- _ =>
          destruct (Init_events _ _ _ _ _ _ I T) as (Fi & Ni);
          exists (gevs ++ optimize_events cfg), ievs, mf, s_mid, s_init
      end.
      repeat split; auto.
      + now rewrite <- !app_assoc.
      + apply Forall_app; split;
          [apply Forall_app; split; [exact Gj | exact Oj]|].
        eapply Forall_impl; [|exact Fi].
        intros [] E; try discriminate; reflexivity.
      + apply Forall_app; auto.
    - intros R.
      destruct (finish_shape_sorted env cfg fo s' fevs S)
        as (oevs & ievs & jevs & -> & Fo & Fi & Fj & _ & Nj).
      rewrite Nj by (intros ->; now apply R).
      rewrite app_nil_r.
      apply Forall_app; split; [exact Gj|].
      apply Forall_app; split.
      + eapply Forall_impl; [|exact Fo].
        intros [] E; try discriminate; reflexivity.
      + eapply Forall_impl; [|exact Fi].
        intros [] E; try discriminate; reflexivity. }
  destruct (gen_module_ s).
  - destruct C as (fo & S & ->). apply (Fin fo evs [] S); constructor.
  - destruct C as [(created & S & -> & _)
                  | (em & gevs & fo & fevs & S & S2 & -> & ->)].
    + split; [discriminate|]. intros _. now apply generate_shape_plain in S.
    + apply generate_shape_plain in S. apply Fin; tauto.
Qed.

Lemma Prepare_initializes_then_compiles_example :
  exists pre ievs,
    trace (snd (Prepare unit (scripted sc_ok) cfg_plain constructed)) =
    pre ++ ievs
        ++ [EvGetPointerToFunction
              (mkFunction "xe_module_init" Int32Ty [] false);
            EvGetPointerToFunction
              (mkFunction "xe_module_uninit" VoidTy [] false);
            EvGetPointerToFunction sub_1000] /\
    ievs <> [].
Proof.
  destruct (Prepare_initializes_then_compiles unit (scripted sc_ok) cfg_plain
              constructed
              (snd (Prepare unit (scripted sc_ok) cfg_plain constructed))
              (fst (Prepare unit (scripted sc_ok) cfg_plain constructed))
              (trace (snd (Prepare unit (scripted sc_ok) cfg_plain
                             constructed))))
    as (H & _); [vm_compute; reflexivity | reflexivity |].
  destruct H as (pre & ievs & mf & s_mid & s_init & _ & _ & N & G & E & _);
    [vm_compute; reflexivity|].
  exists pre, ievs. split; [|exact N].
  rewrite E. do 2 f_equal.
  vm_compute in G. inversion G. reflexivity.
Defined.

(** C4, as stated, fails.  In a run where everything succeeds, the three
    functions with a body are compiled after [Init] has made its calls. *)
Lemma Prepare_compiles_after_Init :
  ~ compiled_before_init
      (trace (snd (Prepare unit (scripted sc_ok) cfg_plain constructed))).
Proof. unfold compiled_before_init. vm_compute. discriminate. Qed.

(** C1.  Once a generated module exists, [Prepare] does not build it
    again.  For two calls in a row, the first on an object without a
    module and leaving one behind: the generator is called exactly once
    over both calls; the second call makes none of the calls of the
    module-building block (loading the runtime module, analysis, symbol
    map, module creation, global injection, linking, generation) and
    starts with materialization; and it leaves the module's function
    list as it was, given that materialization and the pass manager keep
    function lists. *)
Theorem Prepare_idempotent :
  forall (World : Type) (env : Env World) (cfg : Config)
         (s0 s1 s2 : State World) (o1 o2 : Outcome Z) (m1 : Module),
    gen_module_ s0 = None ->
    Prepare World env cfg s0 = (o1, s1) ->
    gen_module_ s1 = Some m1 ->
    Prepare World env cfg s1 = (o2, s2) ->
    exists evs1 evs2,
      trace s1 = trace s0 ++ evs1 /\
      trace s2 = trace s1 ++ evs2 /\
      count_generate (evs1 ++ evs2) = 1%nat /\
      Forall (fun e => is_generation_event e = false) evs2 /\
      (exists failed rest, evs2 = EvMaterializeAllPermanently failed :: rest) /\
      (functions_preserved env ->
       exists m2, gen_module_ s2 = Some m2 /\
                  function_list m2 = function_list m1).
Proof.
  intros World env cfg s0 s1 s2 o1 o2 m1 G0 H1 G1 H2.
  destruct (Prepare_shape env cfg s0 o1 s1 H1) as (evs1 & T1 & C1 & _).
  rewrite G0 in C1.
  assert (N1 : count_generate evs1 = 1%nat).
  { destruct C1 as [(created & S & _ & G)
                   | (em & gevs & fo & fevs & S & S2 & -> & _)].
    - destruct created; [|congruence].
      destruct (generate_shape_events cfg _ _ _ S)
        as (bevs & devs & -> & _ & D & N).
      rewrite count_generate_app, N.
      destruct D as [-> | [-> | (err & _ & _ & ->)]]; reflexivity.
    - destruct (generate_shape_events cfg _ _ _ S)
        as (bevs & devs & -> & _ & D & N).
      rewrite !count_generate_app, N.
      rewrite (count_generate_none fevs).
      + destruct D as [-> | [-> | (err & _ & _ & ->)]]; reflexivity.
      + apply finish_shape_no_generation in S2.
        eapply Forall_impl; [|exact S2].
        intros [] E; try discriminate; reflexivity. }
  unfold Prepare, Prepare_body in H2. rewrite G1 in H2.
  destruct (Prepare_finish World env cfg "" s1) as [fo sf] eqn:E.
  destruct (Prepare_finish_shape env cfg _ _ _ _ _ G1 E)
    as (evs2 & T2 & S & m2 & G2 & F2).
  assert (sf = s2) as -> by (destruct fo; inversion H2; auto).
  pose proof (finish_shape_no_generation env cfg _ _ _ S) as NG.
  exists evs1, evs2. repeat split; auto.
  - rewrite count_generate_app, N1, (count_generate_none evs2); auto.
    eapply Forall_impl; [|exact NG].
    intros [] E'; try discriminate; reflexivity.
  - destruct (finish_shape_sorted env cfg _ _ _ S)
      as (oevs & ievs & jevs & -> & _ & _ & _ & (failed & rest & ->) & _).
    simpl. eauto.
  - eauto.
Qed.

Lemma scripted_functions_preserved (sc : Script) :
  functions_preserved (scripted sc).
Proof.
  split.
  - reflexivity.
  - intros ps m w m' w' E. simpl in E. now inversion E.
Qed.

Lemma Prepare_idempotent_example :
  count_generate
    (trace (snd (Prepare unit (scripted sc_ok) cfg_plain
                   (snd (Prepare unit (scripted sc_ok) cfg_plain
                           constructed))))) = 1%nat.
Proof.
  destruct (Prepare_idempotent unit (scripted sc_ok) cfg_plain constructed
              (snd (Prepare unit (scripted sc_ok) cfg_plain constructed))
              (snd (Prepare unit (scripted sc_ok) cfg_plain
                      (snd (Prepare unit (scripted sc_ok) cfg_plain
                              constructed))))
              (fst (Prepare unit (scripted sc_ok) cfg_plain constructed))
              (fst (Prepare unit (scripted sc_ok) cfg_plain
                      (snd (Prepare unit (scripted sc_ok) cfg_plain
                              constructed))))
              (append_functions [sub_1000]
                 (append_functions (function_list thunk_module)
                    (append_functions injected_functions
                       (add_GlobalVariable (xe_memory_base cfg_plain)
                          (setTargetTriple "x86_64-unknown-linux-gnu"
                             (new_Module "game")))))))
    as (evs1 & evs2 & T1 & T2 & N & _);
    [reflexivity | vm_compute; reflexivity | vm_compute; reflexivity
     | vm_compute; reflexivity |].
  rewrite T2, T1. exact N.
Defined.

(* ================================================================== *)
(** ** What each part of [Prepare] leaves alone *)

Section Frames.

Context {World : Type}.
Variable env : Env World.
Variable cfg : Config.

Implicit Types (s : State World).

Lemma Init_codegen s o s' :
  Init World env cfg s = (o, s') -> codegen_ s' = codegen_ s.
Proof.
  intros H. unfold Init in H. unfold_monad H.
  destruct (sdb_GetAllVariables env (world s)) as [[rc variables] w1].
  cbv beta iota in H. state_simpl.
  destruct (negb (rc =? 0)); cbv beta iota in H.
  { now inversion H. }
  set (s1 := add_event World (EvGetAllVariables rc) (set_world World w1 s)) in H.
  destruct (bind_variables_fields cfg variables s1) as (Eg & Ec & Ew & Et).
  destruct (bind_variables World cfg variables s1) as [mem2 g2 c2 w2 t2 l2].
  subst s1. state_simpl. subst.
  destruct (gen_module_ s) as [m|]; cbv beta iota in H; [|now inversion H].
  state_simpl.
  destruct (engine_runStaticConstructorsDestructors env m false mem2 w1)
    as [[mem3 w3]|]; cbv beta iota in H; [|now inversion H].
  state_simpl. cbv beta iota in H.
  destruct (engine_runFunction env m _ mem3 w3) as [[[v mem4] w4]|];
    cbv beta iota in H; now inversion H.
Qed.

Lemma dump_bitcode_fields (file_name error_message : string) s o s' :
  dump_bitcode World env file_name error_message s = (o, s') ->
  codegen_ s' = codegen_ s /\ log s' = log s.
Proof.
  destruct s as [mem g c w t l]. intros H.
  unfold dump_bitcode in H. exec_in H.
  destruct (raw_fd_ostream_new env file_name error_message w) as [err w1].
  exec_in H.
  destruct (string_empty err); exec_in H; [|now inversion H].
  destruct g as [m|]; exec_in H; [|now inversion H].
  destruct (WriteBitcodeToFile env m file_name w1) as [[] w2].
  exec_in H. now inversion H.
Qed.

(** Initialization and forced compilation change guest memory and the
    log only as [Init] does. *)
Lemma Prepare_initialize_frame s m o s' :
  gen_module_ s = Some m ->
  Prepare_initialize World env cfg s = (o, s') ->
  exists oi s_init,
    Init World env cfg s = (oi, s_init) /\
    memory_ s' = memory_ s_init /\ log s' = log s_init /\
    codegen_ s' = codegen_ s.
Proof.
  intros G H. unfold Prepare_initialize in H. unfold bind at 1 in H.
  destruct (Init World env cfg s) as [oi si] eqn:I.
  pose proof (Init_codegen s oi si I) as Ec.
  destruct (Init_effect env cfg s oi si I) as (Gi & _).
  rewrite G in Gi.
  exists oi, si. split; [reflexivity|].
  destruct oi as [r| |].
  - unfold bind, XEEXPECTZERO in H.
    destruct (r =? 0).
    + destruct (force_jit_run env si m Gi) as (w' & E). rewrite E in H.
      inversion H; subst; clear H. cbn [memory_ log codegen_]. auto.
    + inversion H; subst; auto.
  - inversion H; subst; auto.
  - inversion H; subst; auto.
Qed.


(** The second half of [Prepare] keeps the generator pointer, and guest
    memory and the log change only if [Init] is reached. *)
Lemma Prepare_finish_frame error_message s m o s' :
  gen_module_ s = Some m ->
  Prepare_finish World env cfg error_message s = (o, s') ->
  codegen_ s' = codegen_ s /\
  ((memory_ s' = memory_ s /\ log s' = log s) \/
   exists evs rc, trace s' = trace s ++ evs /\ In (EvGetAllVariables rc) evs).
Proof.
  destruct s as [mem g c w t l]. cbn [gen_module_ trace memory_ log codegen_].
  intros -> H.
  unfold Prepare_finish in H. exec_in H.
  destruct (MaterializeAllPermanently env m error_message w)
    as [[failed [m1 em1]] w1].
  exec_in H.
  destruct failed; cbn [negb] in H; exec_in H.
  { inversion H; subst; clear H. cbn [memory_ log codegen_]. auto. }
  destruct (PassManager_run env (Prepare_passes cfg)
              (setTargetTriple (getDefaultTargetTriple env) m1) w1)
    as [[m2 w2]|]; exec_in H.
  2:{ inversion H; subst; clear H. cbn [memory_ log codegen_]. auto. }
  assert (Tail : forall S pre,
             gen_module_ S = Some m2 ->
             memory_ S = mem -> log S = l -> codegen_ S = c ->
             trace S = t ++ pre ->
             Prepare_initialize World env cfg S = (o, s') ->
             codegen_ s' = c /\
             ((memory_ s' = mem /\ log s' = l) \/
              exists evs rc, trace s' = t ++ evs /\
                             In (EvGetAllVariables rc) evs)).
  { intros S pre GS MS LS CS TS HS.
    destruct (Prepare_initialize_frame S m2 o s' GS HS)
      as (oi & si & I & _ & _ & Ec).
    destruct (Prepare_initialize_cases env cfg S m2 o s' GS HS)
      as (oi' & si' & ievs & I' & Ti & _ & _ & _ & _ & C).
    rewrite I in I'. inversion I'; subst oi' si'; clear I'.
    destruct (Init_effect env cfg S oi si I) as (_ & _ & rc & rest & Ti' & _).
    rewrite Ti' in Ti. apply app_inv_head in Ti. subst ievs.
    split; [congruence|]. right.
    destruct C as [(_ & _ & T') | (_ & _ & ->)].
    - eexists _, rc. rewrite T', TS, <- !app_assoc.
      split; [reflexivity|]. apply in_or_app. right. simpl. auto.
    - eexists _, rc. rewrite Ti', TS, <- !app_assoc.
      split; [reflexivity|]. apply in_or_app. right. simpl. auto. }
  destruct (FLAGS_optimize_ir_modules cfg && FLAGS_dump_module_bitcode cfg);
    exec_in H.
  - destruct (dump_bitcode World env (file_name_for cfg ".bc") em1 _)
      as [od sd] eqn:D in H.
    pose proof (dump_bitcode_memory env _ _ _ _ _ D) as Md.
    destruct (dump_bitcode_fields _ _ _ _ _ D) as (Cd & Ld).
    apply dump_bitcode_cases with (m := m2) in D; [|reflexivity].
    cbn [memory_ log codegen_ trace] in *.
    destruct D as (Gd & [(err & Herr & -> & Td) | (-> & Td)]).
    + inversion H; subst; clear H. auto.
    + eapply (Tail sd _ Gd Md Ld Cd); [|exact H].
      rewrite Td, <- !app_assoc. reflexivity.
  - refine (Tail _ _ _ _ _ _ _ H); try reflexivity.
    cbn [trace]. rewrite <- !app_assoc. reflexivity.
Qed.

(** Building the module installs the generator and logs nothing. *)
Lemma Prepare_build_frame shared_module error_message s o s' :
  Prepare_build World env cfg shared_module error_message s = (o, s') ->
  codegen_ s' = true /\ log s' = log s.
Proof.
  destruct s as [mem g c w t l]. intros H.
  unfold Prepare_build in H. exec_in H.
  match type of H with
  | context [InjectGlobals World env cfg ?S] =>
      destruct (InjectGlobals_run env cfg S _ eq_refl) as (w1 & E);
      rewrite E in H; clear E
  end.
  exec_in H. change (0 =? 0) with true in H. exec_in H.
  match type of H with
  | context [Linker_LinkModules env ?a ?b ?e ?w] =>
      destruct (Linker_LinkModules env a b e w) as [[linked em2] w2]
  end.
  exec_in H.
  destruct (ModuleGenerator_Generate env linked w2) as [[rc generated] w3].
  exec_in H. cbn [codegen_ log].
  destruct (rc =? 0).
  - destruct (FLAGS_dump_module_bitcode cfg).
    + apply dump_bitcode_fields in H. exact H.
    + now inversion H.
  - now inversion H.
Qed.

Lemma Prepare_generate_frame s o s' :
  Prepare_generate World env cfg s = (o, s') ->
  log s' = log s /\
  ((gen_module_ s' = gen_module_ s /\ codegen_ s' = codegen_ s) \/
   codegen_ s' = true).
Proof.
  destruct s as [mem g c w t l]. intros H.
  unfold Prepare_generate in H. exec_in H.
  destruct (MemoryBuffer_getFile env thunk_path w) as [[rc buffer] w1].
  exec_in H.
  destruct (rc =? 0); [|inversion H; subst; cbn; auto].
  destruct (ParseBitcodeFile env buffer w1) as [[[shared_module|] em] w2];
    exec_in H; [|inversion H; subst; cbn; auto].
  destruct (sdb_Analyze env w2) as [rc2 w3]. exec_in H.
  destruct (rc2 =? 0); [|inversion H; subst; cbn; auto].
  cbn [log gen_module_ codegen_].
  destruct (FLAGS_dump_module_map cfg); exec_in H.
  - destruct (sdb_Write env (file_name_for cfg ".map") w3) as [wrc w4].
    exec_in H. apply Prepare_build_frame in H. cbn [log] in H. tauto.
  - apply Prepare_build_frame in H. cbn [log] in H. tauto.
Qed.

End Frames.

(* ================================================================== *)
(** ** More facts about the calls of a run *)

Lemma find_app_first {A} (p : A -> bool) (l1 l2 : list A) :
  find p (l1 ++ l2) =
  match find p l1 with Some x => Some x | None => find p l2 end.
Proof.
  induction l1 as [|x l1 IH]; simpl; auto. destruct (p x); auto.
Qed.

Lemma find_all_false {A} (p : A -> bool) (l : list A) :
  (forall x, In x l -> p x = false) -> find p l = None.
Proof.
  induction l as [|x l IH]; simpl; intros H; auto.
  rewrite (H x) by auto. apply IH. auto.
Qed.

Lemma build_events_failed_check (cfg : Config) (wrc rc : Z) (e : Event) :
  In e (build_events cfg wrc rc) -> is_failed_check e = true ->
  e = EvGenerate rc /\ rc <> 0 /\
  exists pre, build_events cfg wrc rc = pre ++ [e].
Proof.
  unfold build_events.
  intros Hin F.
  assert (E : e = EvGenerate rc).
  { destruct (FLAGS_dump_module_map cfg); simpl in Hin;
      repeat (destruct Hin as [<-|Hin]; [try discriminate F; auto|]);
      destruct Hin. }
  subst e. simpl in F. split; [reflexivity|]. split.
  - intros ->. discriminate F.
  - exists ([EvGetFile thunk_path 0; EvParseBitcodeFile true; EvAnalyze 0]
            ++ (if FLAGS_dump_module_map cfg
                then [EvSdbWrite (file_name_for cfg ".map") wrc] else [])
            ++ [EvNewModule (module_name_ cfg)] ++ injected_events
            ++ [EvLinkModules]).
    rewrite <- !app_assoc. reflexivity.
Qed.

Lemma generate_shape_failed_check (cfg : Config) o created gevs e :
  generate_shape cfg o created gevs ->
  In e gevs -> is_failed_check e = true ->
  o = Cleanup /\ exists pre, gevs = pre ++ [e].
Proof.
  intros S Hin F. inversion S; subst; clear S.
  - destruct Hin as [<-|[]]. split; auto. exists []. reflexivity.
  - destruct Hin as [<-|[<-|[]]]; try discriminate F.
    split; auto. exists [EvGetFile thunk_path 0]. reflexivity.
  - destruct Hin as [<-|[<-|[<-|[]]]]; try discriminate F.
    split; auto.
    exists [EvGetFile thunk_path 0; EvParseBitcodeFile true]. reflexivity.
  - destruct (build_events_failed_check _ _ _ _ Hin F) as (_ & _ & P). auto.
  - apply in_app_or in Hin. destruct Hin as [Hin|[<-|[]]];
      [|discriminate F].
    destruct (build_events_failed_check _ _ _ _ Hin F) as (_ & N & _).
    now destruct N.
  - apply in_app_or in Hin. destruct Hin as [Hin|Hin].
    + destruct (build_events_failed_check _ _ _ _ Hin F) as (_ & N & _).
      now destruct N.
    + unfold dump_events in Hin.
      destruct (FLAGS_dump_module_bitcode cfg); simpl in Hin;
        repeat (destruct Hin as [<-|Hin]; [discriminate F|]); destruct Hin.
Qed.

Section MoreRunFacts.

Context {World : Type}.
Variable env : Env World.
Variable cfg : Config.

Implicit Types (s : State World).

Lemma finish_shape_failed_check fo s' fevs e :
  finish_shape env cfg fo s' fevs ->
  In e fevs -> is_failed_check e = true ->
  fo = Cleanup /\ fevs = [e].
Proof.
  intros S Hin F.
  assert (O : ~ In e (optimize_events cfg)).
  { unfold optimize_events, dump_events. intros H.
    destruct (FLAGS_optimize_ir_modules cfg && FLAGS_dump_module_bitcode cfg);
      simpl in H;
      repeat (destruct H as [<-|H]; [discriminate F|]); destruct H. }
  assert (I : forall s o s1 ievs,
             Init World env cfg s = (o, s1) -> trace s1 = trace s ++ ievs ->
             ~ In e ievs).
  { intros s o s1 ievs HI HT H.
    destruct (Init_events env cfg s o s1 ievs HI HT) as (Fi & _).
    rewrite Forall_forall in Fi. specialize (Fi _ H).
    destruct e; try discriminate Fi; discriminate F. }
  assert (J : forall m, ~ In e (jit_events m)).
  { intros m H. unfold jit_events in H. apply in_map_iff in H.
    destruct H as (? & <- & _). discriminate F. }
  inversion S; subst; clear S.
  - destruct Hin as [<-|[]]. auto.
  - destruct Hin as [<-|[<-|[]]]; discriminate F.
  - destruct Hin as [<-|[<-|[<-|[]]]]; discriminate F.
  - apply in_app_or in Hin. destruct Hin as [Hin|Hin]; exfalso.
    + now apply O.
    + eapply I; eauto.
  - apply in_app_or in Hin. destruct Hin as [Hin|Hin]; [exfalso; now apply O|].
    apply in_app_or in Hin. destruct Hin as [Hin|Hin]; exfalso.
    + eapply I; eauto.
    + eapply J; eauto.
Qed.

(** Where the second half of [Prepare] touches a dump file. *)
Lemma finish_shape_dump_event fo s' fevs e :
  finish_shape env cfg fo s' fevs ->
  In e fevs -> is_dump_event e = true ->
  FLAGS_optimize_ir_modules cfg = true /\
  FLAGS_dump_module_bitcode cfg = true /\
  ((exists err, e = EvRawFdOstream (file_name_for cfg ".bc") err) \/
   e = EvWriteBitcodeToFile (file_name_for cfg ".bc")).
Proof.
  intros S Hin F.
  assert (O : In e (optimize_events cfg) ->
              FLAGS_optimize_ir_modules cfg = true /\
              FLAGS_dump_module_bitcode cfg = true /\
              ((exists err, e = EvRawFdOstream (file_name_for cfg ".bc") err) \/
               e = EvWriteBitcodeToFile (file_name_for cfg ".bc"))).
  { unfold optimize_events, dump_events. intros H.
    destruct (FLAGS_optimize_ir_modules cfg) eqn:F1,
             (FLAGS_dump_module_bitcode cfg) eqn:F2; simpl in H;
      repeat (destruct H as [<-|H]; [try discriminate F; eauto 6|]);
      destruct H. }
  assert (I : forall s o s1 ievs,
             Init World env cfg s = (o, s1) -> trace s1 = trace s ++ ievs ->
             ~ In e ievs).
  { intros s o s1 ievs HI HT H.
    destruct (Init_events env cfg s o s1 ievs HI HT) as (Fi & _).
    rewrite Forall_forall in Fi. specialize (Fi _ H).
    destruct e; try discriminate Fi; discriminate F. }
  assert (J : forall m, ~ In e (jit_events m)).
  { intros m H. unfold jit_events in H. apply in_map_iff in H.
    destruct H as (? & <- & _). discriminate F. }
  inversion S; subst; clear S.
  - destruct Hin as [<-|[]]. discriminate F.
  - destruct Hin as [<-|[<-|[]]]; discriminate F.
  - match goal with
    | Hf : _ && _ = true |- _ => apply andb_true_iff in Hf; destruct Hf
    end.
    destruct Hin as [<-|[<-|[<-|[]]]]; try discriminate F. eauto 6.
  - apply in_app_or in Hin. destruct Hin as [Hin|Hin]; auto.
    exfalso. eapply I; eauto.
  - apply in_app_or in Hin. destruct Hin as [Hin|Hin]; auto.
    apply in_app_or in Hin. destruct Hin as [Hin|Hin]; exfalso.
    + eapply I; eauto.
    + eapply J; eauto.
Qed.

End MoreRunFacts.

(** Where the module-building block touches a dump file. *)
Lemma generate_shape_dump_event (cfg : Config) o created gevs e :
  generate_shape cfg o created gevs ->
  In e gevs -> is_dump_event e = true ->
  (FLAGS_dump_module_map cfg = true /\
   exists rc, e = EvSdbWrite (file_name_for cfg ".map") rc) \/
  (FLAGS_dump_module_bitcode cfg = true /\
   ((exists err, e = EvRawFdOstream (file_name_for cfg "-preopt.bc") err) \/
    e = EvWriteBitcodeToFile (file_name_for cfg "-preopt.bc"))).
Proof.
  assert (B : forall wrc rc,
             In e (build_events cfg wrc rc) -> is_dump_event e = true ->
             FLAGS_dump_module_map cfg = true /\
             exists rc', e = EvSdbWrite (file_name_for cfg ".map") rc').
  { intros wrc rc Hin F. unfold build_events in Hin.
    destruct (FLAGS_dump_module_map cfg); simpl in Hin;
      repeat (destruct Hin as [<-|Hin]; [try discriminate F; eauto|]);
      destruct Hin. }
  intros S Hin F. inversion S; subst; clear S.
  - destruct Hin as [<-|[]]. discriminate F.
  - destruct Hin as [<-|[<-|[]]]; discriminate F.
  - destruct Hin as [<-|[<-|[<-|[]]]]; discriminate F.
  - left. eapply B; eauto.
  - apply in_app_or in Hin. destruct Hin as [Hin|[<-|[]]].
    + left. eapply B; eauto.
    + right. eauto 6.
  - apply in_app_or in Hin. destruct Hin as [Hin|Hin].
    + left. eapply B; eauto.
    + right. unfold dump_events in Hin.
      destruct (FLAGS_dump_module_bitcode cfg); simpl in Hin;
        repeat (destruct Hin as [<-|Hin]; [eauto 6|]); destruct Hin.
Qed.

(* ================================================================== *)
(** ** Further properties *)

(** X1.  On a generated module none of whose functions bears an injected
    name (a new module for one), [InjectGlobals] returns 0 and leaves a
    module that has the old functions followed by the six trampoline
    declarations and the old globals followed by [xe_memory_base]; the
    six are bound to the host functions of the same names, in order;
    afterwards each injected name resolves to its declaration, every
    older name resolves as before, and guest memory and the log are
    untouched. *)
Theorem InjectGlobals_declares_trampolines :
  forall (World : Type) (env : Env World) (cfg : Config) (s : State World)
         (m : Module),
    gen_module_ s = Some m ->
    no_injected_name m ->
    exists s' m',
      InjectGlobals World env cfg s = (Ret 0, s') /\
      gen_module_ s' = Some m' /\
      function_list m' = function_list m ++ injected_functions /\
      global_list m' = global_list m ++ [xe_memory_base cfg] /\
      trace s' = trace s ++ injected_events /\
      memory_ s' = memory_ s /\ log s' = log s /\
      (forall g, In g injected_functions ->
         getFunction m' (fn_name g) = Some g) /\
      (forall f, In f (function_list m) ->
         getFunction m' (fn_name f) = getFunction m (fn_name f)).
Proof.
  intros World env cfg s m G N.
  destruct (InjectGlobals_run env cfg s m G) as (w' & E).
  eexists _, _. split; [exact E|]. cbn [gen_module_ trace memory_ log].
  repeat split.
  - intros g Hg. unfold getFunction. cbn [function_list append_functions
                                           add_GlobalVariable].
    rewrite find_app_first, find_all_false.
    + simpl in Hg.
      repeat (destruct Hg as [<-|Hg]; [reflexivity|]). destruct Hg.
    + intros f Hf. apply String.eqb_neq. now apply N.
  - intros f Hf. unfold getFunction. cbn [function_list append_functions
                                           add_GlobalVariable].
    rewrite find_app_first.
    destruct (find (fun f0 => String.eqb (fn_name f0) (fn_name f))
                   (function_list m)) eqn:Ef; auto.
    exfalso. apply find_none with (x := f) in Ef; auto.
    now rewrite String.eqb_refl in Ef.
Qed.

Lemma InjectGlobals_declares_trampolines_example :
  exists s' m',
    InjectGlobals unit (scripted sc_ok) cfg_plain
      (mkState zero_memory (Some (new_Module "game")) false tt [] [])
    = (Ret 0, s') /\
    gen_module_ s' = Some m' /\
    getFunction m' "XeTrap"
    = Some (mkFunction "XeTrap" VoidTy [Int8PtrTy; Int32Ty] true).
Proof.
  destruct (InjectGlobals_declares_trampolines unit (scripted sc_ok) cfg_plain
              (mkState zero_memory (Some (new_Module "game")) false tt [] [])
              (new_Module "game"))
    as (s' & m' & E & G & _ & _ & _ & _ & _ & L & _).
  - reflexivity.
  - intros f g [].
  - exists s', m'. split; [exact E|]. split; [exact G|].
    apply (L (mkFunction "XeTrap" VoidTy [Int8PtrTy; Int32Ty] true)).
    simpl. auto.
Defined.

(** X2.  When the symbol database cannot list its variables, [Init]
    returns 1 at once: guest memory and the log are as before, no static
    constructor and no entry point runs, and the request for the
    variables is the only call made. *)
Theorem Init_fails_without_variables :
  forall (World : Type) (env : Env World) (cfg : Config) (s : State World)
         (rc : Z) (variables : list VariableSymbol) (w1 : World),
    sdb_GetAllVariables env (world s) = ((rc, variables), w1) ->
    rc <> 0 ->
    exists s',
      Init World env cfg s = (Ret 1, s') /\
      memory_ s' = memory_ s /\ log s' = log s /\
      gen_module_ s' = gen_module_ s /\
      trace s' = trace s ++ [EvGetAllVariables rc].
Proof.
  intros World env cfg [mem g c w t l] rc variables w1 G Hrc.
  cbn [world] in G. unfold Init. exec_goal. rewrite G. exec_goal.
  apply Z.eqb_neq in Hrc. rewrite Hrc. cbn [negb].
  eexists. split; [reflexivity|]. cbn. auto.
Qed.

Lemma Init_fails_without_variables_example :
  exists s',
    Init unit (scripted sc_no_variables) cfg_plain with_thunk = (Ret 1, s') /\
    memory_ s' = memory_ with_thunk /\ log s' = log with_thunk /\
    gen_module_ s' = gen_module_ with_thunk /\
    trace s' = trace with_thunk ++ [EvGetAllVariables 5].
Proof.
  apply (Init_fails_without_variables unit (scripted sc_no_variables)
           cfg_plain with_thunk 5 sample_variables tt).
  - reflexivity.
  - lia.
Defined.

(** X3.  Every check [Prepare] makes on a collaborator's answer stops
    it: when the runtime support module cannot be read or parsed, the
    analysis or the generator returns nonzero, or materialization fails,
    that call is the last one [Prepare] makes and [Prepare] returns 1. *)
Theorem Prepare_stops_at_failed_check :
  forall (World : Type) (env : Env World) (cfg : Config) (s s' : State World)
         (o : Outcome Z) (evs : list Event) (e : Event),
    Prepare World env cfg s = (o, s') ->
    trace s' = trace s ++ evs ->
    In e evs ->
    is_failed_check e = true ->
    o = Ret 1 /\ exists pre, evs = pre ++ [e].
Proof.
  intros World env cfg s s' o evs e H T Hin F.
  destruct (Prepare_shape env cfg s o s' H) as (evs' & T' & C & _).
  rewrite T' in T. apply app_inv_head in T. subst evs'.
  destruct (gen_module_ s).
  - destruct C as (fo & S & ->).
    destruct (finish_shape_failed_check env cfg _ _ _ _ S Hin F) as (-> & ->).
    split; [reflexivity|]. now exists [].
  - destruct C as [(created & S & -> & _)
                  | (em & gevs & fo & fevs & S & S2 & -> & ->)].
    + destruct (generate_shape_failed_check cfg _ _ _ _ S Hin F) as (_ & P).
      auto.
    + apply in_app_or in Hin. destruct Hin as [Hin|Hin].
      * destruct (generate_shape_failed_check cfg _ _ _ _ S Hin F) as (E & _).
        discriminate E.
      * destruct (finish_shape_failed_check env cfg _ _ _ _ S2 Hin F)
          as (-> & ->).
        split; [reflexivity|]. now exists gevs.
Qed.

Lemma Prepare_stops_at_failed_check_example :
  fst (Prepare unit (scripted sc_bad_code) cfg_plain constructed) = Ret 1 /\
  exists pre,
    trace (snd (Prepare unit (scripted sc_bad_code) cfg_plain constructed))
    = pre ++ [EvGenerate 3].
Proof.
  apply (Prepare_stops_at_failed_check unit (scripted sc_bad_code) cfg_plain
           constructed
           (snd (Prepare unit (scripted sc_bad_code) cfg_plain constructed))
           (fst (Prepare unit (scripted sc_bad_code) cfg_plain constructed))
           (trace (snd (Prepare unit (scripted sc_bad_code) cfg_plain
                          constructed)))
           (EvGenerate 3)).
  - vm_compute. reflexivity.
  - reflexivity.
  - vm_compute. tauto.
  - reflexivity.
Defined.

(** X4.  [Prepare] touches dump files only as the flags say, and only
    three of them, named from the dump path and the module name: the
    symbol map when [dump_module_map] is set, the pre-optimization
    bitcode when [dump_module_bitcode] is set, and the post-optimization
    bitcode when both [dump_module_bitcode] and [optimize_ir_modules]
    are set. *)
Theorem Prepare_dumps_only_when_asked :
  forall (World : Type) (env : Env World) (cfg : Config) (s s' : State World)
         (o : Outcome Z) (evs : list Event) (e : Event),
    Prepare World env cfg s = (o, s') ->
    trace s' = trace s ++ evs ->
    In e evs ->
    is_dump_event e = true ->
    (FLAGS_dump_module_map cfg = true /\
     exists rc, e = EvSdbWrite (file_name_for cfg ".map") rc) \/
    (FLAGS_dump_module_bitcode cfg = true /\
     ((exists err, e = EvRawFdOstream (file_name_for cfg "-preopt.bc") err) \/
      e = EvWriteBitcodeToFile (file_name_for cfg "-preopt.bc"))) \/
    (FLAGS_dump_module_bitcode cfg = true /\
     FLAGS_optimize_ir_modules cfg = true /\
     ((exists err, e = EvRawFdOstream (file_name_for cfg ".bc") err) \/
      e = EvWriteBitcodeToFile (file_name_for cfg ".bc"))).
Proof.
  intros World env cfg s s' o evs e H T Hin F.
  destruct (Prepare_shape env cfg s o s' H) as (evs' & T' & C & _).
  rewrite T' in T. apply app_inv_head in T. subst evs'.
  assert (Fin : forall fo fevs, finish_shape env cfg fo s' fevs ->
                  In e fevs ->
                  FLAGS_dump_module_bitcode cfg = true /\
                  FLAGS_optimize_ir_modules cfg = true /\
                  ((exists err,
                       e = EvRawFdOstream (file_name_for cfg ".bc") err) \/
                   e = EvWriteBitcodeToFile (file_name_for cfg ".bc"))).
  { intros fo fevs S Hf.
    destruct (finish_shape_dump_event env cfg _ _ _ _ S Hf F) as (? & ? & ?).
    auto. }
  assert (Gen : forall go created gevs, generate_shape cfg go created gevs ->
                  In e gevs ->
                  (FLAGS_dump_module_map cfg = true /\
                   exists rc, e = EvSdbWrite (file_name_for cfg ".map") rc) \/
                  (FLAGS_dump_module_bitcode cfg = true /\
                   ((exists err,
                        e = EvRawFdOstream (file_name_for cfg "-preopt.bc") err)
                    \/ e = EvWriteBitcodeToFile
                             (file_name_for cfg "-preopt.bc")))).
  { intros go created gevs S Hg.
    exact (generate_shape_dump_event cfg _ _ _ _ S Hg F). }
  destruct (gen_module_ s).
  - destruct C as (fo & S & _). right. right. eapply Fin; eauto.
  - destruct C as [(created & S & _)
                  | (em & gevs & fo & fevs & S & S2 & -> & _)].
    + destruct (Gen _ _ _ S Hin); auto.
    + apply in_app_or in Hin. destruct Hin as [Hin|Hin].
      * destruct (Gen _ _ _ S Hin); auto.
      * right. right. eapply Fin; eauto.
Qed.

Lemma Prepare_dumps_only_when_asked_example :
  ~ In (EvSdbWrite "dump/game.map" 0)
       (trace (snd (Prepare unit (scripted sc_ok) cfg_plain constructed))).
Proof.
  intros Hin.
  destruct (Prepare_dumps_only_when_asked unit (scripted sc_ok) cfg_plain
              constructed
              (snd (Prepare unit (scripted sc_ok) cfg_plain constructed))
              (fst (Prepare unit (scripted sc_ok) cfg_plain constructed))
              (trace (snd (Prepare unit (scripted sc_ok) cfg_plain
                             constructed)))
              (EvSdbWrite "dump/game.map" 0))
    as [(F & _) | [(F & _) | (F & _)]];
    [vm_compute; reflexivity | reflexivity | exact Hin | reflexivity
     | discriminate F ..].
Defined.



(** X6.  Outside [Init], [Prepare] neither writes guest memory nor logs:
    a run that never reaches [Init] (it makes no request for the
    variable symbols) leaves both as they were. *)
Theorem Prepare_writes_memory_only_in_Init :
  forall (World : Type) (env : Env World) (cfg : Config) (s s' : State World)
         (o : Outcome Z) (evs : list Event),
    Prepare World env cfg s = (o, s') ->
    trace s' = trace s ++ evs ->
    (forall rc, ~ In (EvGetAllVariables rc) evs) ->
    memory_ s' = memory_ s /\ log s' = log s.
Proof.
  intros World env cfg s s' o evs H T N.
  unfold Prepare, Prepare_body in H.
  destruct (gen_module_ s) as [m|] eqn:G.
  - destruct (Prepare_finish World env cfg "" s) as [fo sf] eqn:E.
    assert (sf = s') as -> by (destruct fo; inversion H; auto).
    destruct (Prepare_finish_frame env cfg _ _ _ _ _ G E)
      as (_ & [F | (evs' & rc & T' & Hin)]); auto.
    rewrite T' in T. apply app_inv_head in T. subst evs'.
    now destruct (N rc).
  - unfold bind in H.
    destruct (Prepare_generate World env cfg s) as [go sg] eqn:E.
    destruct (Prepare_generate_shape env cfg _ _ _ E)
      as (created & gevs & Tg & S & Gg & Mg).
    destruct (Prepare_generate_frame env cfg _ _ _ E) as (Lg & _).
    destruct go as [em| |].
    + assert (created = true) as -> by (inversion S; reflexivity).
      destruct Gg as (mg & Gg).
      destruct (Prepare_finish World env cfg em sg) as [fo sf] eqn:E2.
      assert (sf = s') as -> by (destruct fo; inversion H; auto).
      destruct (Prepare_finish_frame env cfg _ _ _ _ _ Gg E2)
        as (_ & [(M2 & L2) | (evs' & rc & T' & Hin)]).
      * split; congruence.
      * rewrite Tg, <- app_assoc in T'. rewrite T' in T.
        apply app_inv_head in T. subst evs.
        destruct (N rc). apply in_or_app. auto.
    + inversion H; subst. auto.
    + inversion H; subst. auto.
Qed.

Lemma Prepare_writes_memory_only_in_Init_example :
  memory_ (snd (Prepare unit (scripted sc_bad_code) cfg_plain constructed))
  = zero_memory /\
  log (snd (Prepare unit (scripted sc_bad_code) cfg_plain constructed)) = [].
Proof.
  apply (Prepare_writes_memory_only_in_Init unit (scripted sc_bad_code)
           cfg_plain constructed
           (snd (Prepare unit (scripted sc_bad_code) cfg_plain constructed))
           (fst (Prepare unit (scripted sc_bad_code) cfg_plain constructed))
           (trace (snd (Prepare unit (scripted sc_bad_code) cfg_plain
                          constructed)))).
  - vm_compute. reflexivity.
  - reflexivity.
  - intros rc Hin. vm_compute in Hin.
    repeat (destruct Hin as [Hin|Hin]; [discriminate Hin|]). destruct Hin.
Defined.

(** X7.  The forced-JIT loop hands the engine exactly the functions with
    a body: every compilation request of a [Prepare] is for a function
    of the final module that is not a declaration, and is made only in a
    run that returns 0; and a run that returns 0 has requested every
    function with a body of the final module. *)
Theorem Prepare_compiles_only_bodies :
  forall (World : Type) (env : Env World) (cfg : Config) (s s' : State World)
         (o : Outcome Z) (evs : list Event),
    Prepare World env cfg s = (o, s') ->
    trace s' = trace s ++ evs ->
    (forall fn, In (EvGetPointerToFunction fn) evs ->
       o = Ret 0 /\ isDeclaration fn = false /\
       exists mf, gen_module_ s' = Some mf /\ In fn (function_list mf)) /\
    (o = Ret 0 ->
     exists mf, gen_module_ s' = Some mf /\
       forall fn, In fn (function_list mf) -> isDeclaration fn = false ->
                  In (EvGetPointerToFunction fn) evs).
Proof.
  intros World env cfg s s' o evs H T.
  destruct (Prepare_shape env cfg s o s' H) as (evs' & T' & C & _).
  rewrite T' in T. apply app_inv_head in T. subst evs'.
  assert (J : forall mf fn, In (EvGetPointerToFunction fn) (jit_events mf) <->
                            In fn (function_list mf) /\ isDeclaration fn = false).
  { intros mf fn. unfold jit_events. rewrite in_map_iff. split.
    - intros (x & E & Hx). inversion E; subst.
      apply filter_In in Hx. destruct Hx as (? & Hb).
      split; auto. now destruct (isDeclaration fn).
    - intros (Hi & Hd). exists fn. split; auto.
      apply filter_In. split; auto. now rewrite Hd. }
  assert (Fin : forall fo fevs gevs,
             finish_shape env cfg fo s' fevs ->
             Forall (fun e => is_jit_event e = false) gevs ->
             (forall fn, In (EvGetPointerToFunction fn) (gevs ++ fevs) ->
                result_of fo = Ret 0 /\ isDeclaration fn = false /\
                exists mf, gen_module_ s' = Some mf /\
                           In fn (function_list mf)) /\
             (result_of fo = Ret 0 ->
              exists mf, gen_module_ s' = Some mf /\
                forall fn, In fn (function_list mf) ->
                           isDeclaration fn = false ->
                           In (EvGetPointerToFunction fn) (gevs ++ fevs))).
  { intros fo fevs gevs S Fg. split.
    - intros fn Hin.
      assert (Hf : In (EvGetPointerToFunction fn) fevs).
      { apply in_app_or in Hin. destruct Hin as [Hin|Hin]; auto.
        rewrite Forall_forall in Fg. specialize (Fg _ Hin). discriminate Fg. }
      clear Hin.
      assert (O : ~ In (EvGetPointerToFunction fn) (optimize_events cfg)).
      { intros Hx. pose proof (optimize_events_plain cfg) as (Oj & _).
        rewrite Forall_forall in Oj. specialize (Oj _ Hx). discriminate Oj. }
      assert (I : forall s0 o0 s1 ievs,
                 Init World env cfg s0 = (o0, s1) ->
                 trace s1 = trace s0 ++ ievs ->
                 ~ In (EvGetPointerToFunction fn) ievs).
      { intros s0 o0 s1 ievs HI HT Hx.
        destruct (Init_events env cfg s0 o0 s1 ievs HI HT) as (Fi & _).
        rewrite Forall_forall in Fi. specialize (Fi _ Hx). discriminate Fi. }
      inversion S; subst; clear S.
      + exfalso. destruct Hf as [Hf|[]]. discriminate Hf.
      + exfalso. destruct Hf as [Hf|[Hf|[]]]; discriminate Hf.
      + exfalso. destruct Hf as [Hf|[Hf|[Hf|[]]]]; discriminate Hf.
      + exfalso. apply in_app_or in Hf. destruct Hf as [Hf|Hf].
        * now apply O.
        * eapply I; eauto.
      + split; [reflexivity|].
        apply in_app_or in Hf. destruct Hf as [Hf|Hf]; [now destruct O|].
        apply in_app_or in Hf. destruct Hf as [Hf|Hf].
        * exfalso. eapply I; eauto.
        * apply J in Hf. destruct Hf. eauto.
    - intros R. inversion S; subst; clear S; try discriminate R.
      { destruct oi; discriminate R. }
      exists mf. split; auto. intros fn Hi Hd.
      apply in_or_app. right. apply in_or_app. right.
      apply in_or_app. right. apply J. auto. }
  destruct (gen_module_ s).
  - destruct C as (fo & S & ->). apply (Fin fo evs [] S). constructor.
  - destruct C as [(created & S & -> & _)
                  | (em & gevs & fo & fevs & S & S2 & -> & ->)].
    + split; [|discriminate]. intros fn Hin. exfalso.
      apply generate_shape_plain in S. destruct S as (Sj & _).
      rewrite Forall_forall in Sj. specialize (Sj _ Hin). discriminate Sj.
    + apply Fin; auto. now apply generate_shape_plain in S.
Qed.

Lemma Prepare_compiles_only_bodies_example :
  In (EvGetPointerToFunction sub_1000)
     (trace (snd (Prepare unit (scripted sc_ok) cfg_plain constructed))).
Proof.
  destruct (Prepare_compiles_only_bodies unit (scripted sc_ok) cfg_plain
              constructed
              (snd (Prepare unit (scripted sc_ok) cfg_plain constructed))
              (fst (Prepare unit (scripted sc_ok) cfg_plain constructed))
              (trace (snd (Prepare unit (scripted sc_ok) cfg_plain
                             constructed))))
    as (_ & H); [vm_compute; reflexivity | reflexivity |].
  destruct H as (mf & G & A); [vm_compute; reflexivity|].
  apply A; [|reflexivity].
  vm_compute in G. inversion G. simpl. tauto.
Defined.

(** X8.  [Prepare] keeps the object in a state where a generated module
    comes with its generator: from such a state (the constructor's, for
    one) every run, however it ends, leaves such a state; so whenever a
    generated module exists afterwards, [AddFunctionsToMap] reaches the
    generator and returns. *)
Theorem Prepare_keeps_generator_with_module :
  forall (World : Type) (env : Env World) (cfg : Config) (s s' : State World)
         (o : Outcome Z),
    generator_with_module s ->
    Prepare World env cfg s = (o, s') ->
    generator_with_module s' /\
    (gen_module_ s' <> None ->
     forall (FunctionMap : Type)
            (add : FunctionMap -> World -> FunctionMap * World)
            (map : FunctionMap),
     exists map' s'',
       AddFunctionsToMap World FunctionMap add map s' = (Ret map', s'')).
Proof.
  intros World env cfg s s' o Inv H.
  assert (Inv' : generator_with_module s').
  { unfold Prepare, Prepare_body in H.
    destruct (gen_module_ s) as [m|] eqn:G.
    - destruct Inv as [Inv|Inv]; [congruence|].
      destruct (Prepare_finish World env cfg "" s) as [fo sf] eqn:E.
      assert (sf = s') as -> by (destruct fo; inversion H; auto).
      destruct (Prepare_finish_frame env cfg _ _ _ _ _ G E) as (C & _).
      right. congruence.
    - unfold bind in H.
      destruct (Prepare_generate World env cfg s) as [go sg] eqn:E.
      destruct (Prepare_generate_shape env cfg _ _ _ E)
        as (created & gevs & _ & S & Gg & _).
      destruct (Prepare_generate_frame env cfg _ _ _ E) as (_ & F).
      assert (Ig : generator_with_module sg).
      { destruct F as [(Eg & _) | Cg]; [left; congruence | right; exact Cg]. }
      destruct go as [em| |].
      + assert (created = true) as -> by (inversion S; reflexivity).
        destruct Gg as (mg & Gg).
        destruct Ig as [Ig|Ig]; [congruence|].
        destruct (Prepare_finish World env cfg em sg) as [fo sf] eqn:E2.
        assert (sf = s') as -> by (destruct fo; inversion H; auto).
        destruct (Prepare_finish_frame env cfg _ _ _ _ _ Gg E2) as (C & _).
        right. congruence.
      + inversion H; subst. exact Ig.
      + inversion H; subst. exact Ig. }
  split; [exact Inv'|].
  intros G FunctionMap add map.
  destruct Inv' as [N|C]; [congruence|].
  unfold AddFunctionsToMap. rewrite C.
  destruct (add map (world s')) as [map' w]. eauto.
Qed.

Lemma Prepare_keeps_generator_with_module_example :
  exists map' s'',
    AddFunctionsToMap unit (list string) (fun map w => ("sub_00001000" :: map, w))
      [] (snd (Prepare unit (scripted sc_bad_code) cfg_plain constructed))
    = (Ret map', s'').
Proof.
  destruct (Prepare_keeps_generator_with_module unit (scripted sc_bad_code)
              cfg_plain constructed
              (snd (Prepare unit (scripted sc_bad_code) cfg_plain constructed))
              (fst (Prepare unit (scripted sc_bad_code) cfg_plain constructed)))
    as (_ & H); [left; reflexivity | vm_compute; reflexivity |].
  apply H. vm_compute. discriminate.
Defined.

(** X9.  [PrepareRawBinary] and [PrepareUserModule] on an object that
    already has a generated module install the new symbol database but
    never analyse or translate it: the call makes none of the calls of
    the module-building block and starts with materialization of the
    module built before. *)
Theorem Prepare_again_never_analyses :
  forall (World : Type) (env : Env World) (cfg : Config) (s : State World)
         (m : Module),
    gen_module_ s = Some m ->
    (forall (new_RawSymbolDatabase : Z -> Z -> World -> World)
            (start_address end_address : Z) o s' evs,
        PrepareRawBinary World env cfg new_RawSymbolDatabase
          start_address end_address s = (o, s') ->
        trace s' = trace s ++ evs ->
        Forall (fun e => is_generation_event e = false) evs /\
        exists failed rest, evs = EvMaterializeAllPermanently failed :: rest) /\
    (forall (UserModule : Type)
            (new_XexSymbolDatabase xex_retain_release
               : UserModule -> World -> World)
            (user_module : UserModule) o s' evs,
        PrepareUserModule World env cfg UserModule new_XexSymbolDatabase
          xex_retain_release user_module s = (o, s') ->
        trace s' = trace s ++ evs ->
        Forall (fun e => is_generation_event e = false) evs /\
        exists failed rest, evs = EvMaterializeAllPermanently failed :: rest).
Proof.
  intros World env cfg s m G.
  assert (P : forall w o s' evs,
             Prepare World env cfg (set_world World w s) = (o, s') ->
             trace s' = trace s ++ evs ->
             Forall (fun e => is_generation_event e = false) evs /\
             exists failed rest,
               evs = EvMaterializeAllPermanently failed :: rest).
  { intros w o s' evs H T.
    destruct (Prepare_shape env cfg _ o s' H) as (evs' & T' & C & _).
    cbn [set_world trace gen_module_] in T', C.
    rewrite T' in T. apply app_inv_head in T. subst evs'.
    rewrite G in C. destruct C as (fo & S & _).
    split; [now apply finish_shape_no_generation in S|].
    destruct (finish_shape_sorted env cfg _ _ _ S)
      as (oevs & ievs & jevs & -> & _ & _ & _ & (failed & rest & ->) & _).
    simpl. eauto. }
  split.
  - intros new_raw a b o s' evs H T. unfold PrepareRawBinary in H.
    eapply P; eauto.
  - intros UserModule new_xex rel user_module o s' evs H T.
    unfold PrepareUserModule in H.
    destruct (Prepare World env cfg
                (set_world World (new_xex user_module (world s)) s))
      as [po ps] eqn:E.
    destruct po as [rc| |].
    + destruct (negb (rc =? 0)); inversion H; subst; clear H.
      * eapply P; eauto.
      * cbn [set_world trace] in T. eapply P; eauto.
    + inversion H; subst. eapply P; eauto.
    + inversion H; subst. eapply P; eauto.
Qed.

Lemma Prepare_again_never_analyses_example :
  Forall (fun e => is_generation_event e = false)
    (trace (snd (PrepareRawBinary unit (scripted sc_ok) cfg_plain
                   (fun _ _ w => w) 8192 12288 with_thunk))).
Proof.
  destruct (Prepare_again_never_analyses unit (scripted sc_ok) cfg_plain
              with_thunk thunk_module eq_refl) as (H & _).
  destruct (H (fun _ _ w => w) 8192 12288
              (fst (PrepareRawBinary unit (scripted sc_ok) cfg_plain
                      (fun _ _ w => w) 8192 12288 with_thunk))
              (snd (PrepareRawBinary unit (scripted sc_ok) cfg_plain
                      (fun _ _ w => w) 8192 12288 with_thunk))
              (trace (snd (PrepareRawBinary unit (scripted sc_ok) cfg_plain
                             (fun _ _ w => w) 8192 12288 with_thunk))))
    as (F & _); [vm_compute; reflexivity | reflexivity | exact F].
Defined.

(* ------------------------------------------------------------------ *)

Lemma store_u32_in_word (be : bool) (mem mem' : Memory) (p v q : Z) :
  in_word p q -> store_u32 be mem p v q = store_u32 be mem' p v q.
Proof.
  unfold in_word, store_u32, store8. intros H.
  destruct be;
    destruct (Z.eqb_spec q (p + 3)), (Z.eqb_spec q (p + 2)),
             (Z.eqb_spec q (p + 1)), (Z.eqb_spec q p);
    try reflexivity; lia.
Qed.

(** A byte that some store of the loop covers does not depend on what
    memory held before. *)
Lemma bind_memory_covered (cfg : Config) (variables : list VariableSymbol)
    (mem mem' : Memory) (q : Z) :
  (exists var, In var variables /\ writes_slot var = true /\
               in_word (address var) q) ->
  bind_memory (XE_CPU_BIGENDIAN cfg) variables mem q
  = bind_memory (XE_CPU_BIGENDIAN cfg) variables mem' q.
Proof.
  revert mem mem'.
  induction variables as [|v l IH]; intros mem mem' (var & Hin & W & Hq).
  - destruct Hin.
  - change (v :: l) with ([v] ++ l). rewrite !(bind_memory_app cfg [v] l).
    destruct (existsb (fun x => writes_slot x
                                && (address x <=? q) && (q <? address x + 4)) l)
      eqn:Ex.
    + apply IH. apply existsb_exists in Ex. destruct Ex as (x & Hx & Hb).
      apply andb_true_iff in Hb. destruct Hb as (Hb & H2).
      apply andb_true_iff in Hb. destruct Hb as (H0 & H1).
      exists x. unfold in_word. repeat split; auto; lia.
    + assert (Fr : forall x, In x l -> writes_slot x = true ->
                             ~ in_word (address x) q).
      { intros x Hx Wx (H1 & H2).
        assert (existsb (fun x => writes_slot x && (address x <=? q)
                                  && (q <? address x + 4)) l = true).
        { apply existsb_exists. exists x. split; auto.
          rewrite Wx. simpl. apply andb_true_iff. split; lia. }
        congruence. }
      rewrite !(bind_memory_frame cfg l) by exact Fr.
      destruct Hin as [<-|Hin]; [|now destruct (Fr var Hin W)].
      unfold bind_memory. simpl. rewrite W. simpl.
      now apply store_u32_in_word.
Qed.

(** X10.  The binding loop of [Init] is idempotent on guest memory: run
    again over the same symbols, as a second [Prepare] does, it leaves
    every byte as the first run left it, whether or not words overlap;
    the log is not spared, each run repeats the warnings. *)
Theorem Init_binding_idempotent :
  forall (World : Type) (cfg : Config) (variables : list VariableSymbol)
         (s : State World) (q : Z),
    let once := bind_variables World cfg variables s in
    let twice := bind_variables World cfg variables once in
    memory_ twice q = memory_ once q /\
    log twice = log s ++ warnings_of variables ++ warnings_of variables.
Proof.
  intros World cfg variables s q once twice. subst once twice. split.
  - rewrite !bind_variables_memory.
    destruct (existsb (fun x => writes_slot x && (address x <=? q)
                                && (q <? address x + 4)) variables) eqn:Ex.
    + apply bind_memory_covered.
      apply existsb_exists in Ex. destruct Ex as (x & Hx & Hb).
      apply andb_true_iff in Hb. destruct Hb as (Hb & H2).
      apply andb_true_iff in Hb. destruct Hb as (H0 & H1).
      exists x. unfold in_word. repeat split; auto; lia.
    + apply bind_memory_frame. intros x Hx Wx (H1 & H2).
      assert (existsb (fun x => writes_slot x && (address x <=? q)
                                && (q <? address x + 4)) variables = true).
      { apply existsb_exists. exists x. split; auto.
        rewrite Wx. simpl. apply andb_true_iff. split; lia. }
      congruence.
  - rewrite !bind_variables_log. now rewrite <- app_assoc.
Qed.

(* ================================================================== *)
(** ** The result of [Init] *)

Lemma static_cast_int_range (x : Z) :
  - 2 ^ 31 <= static_cast_int x < 2 ^ 31.
Proof.
  unfold static_cast_int.
  pose proof (Z.mod_pos_bound (x + 2 ^ 31) (2 ^ 32) ltac:(lia)). lia.
Qed.

Lemma static_cast_int_fits (x : Z) :
  - 2 ^ 31 <= x < 2 ^ 31 -> static_cast_int x = x.
Proof.
  intros H. unfold static_cast_int. rewrite Z.mod_small by lia. lia.
Qed.

(** Whatever the engine answers, what [Init] returns is an [int]. *)
Lemma Init_result_is_an_int {World : Type} (env : Env World) (cfg : Config)
    (s s' : State World) (r : Z) :
  Init World env cfg s = (Ret r, s') -> - 2 ^ 31 <= r < 2 ^ 31.
Proof.
  intros H. unfold Init in H. unfold_monad H.
  destruct (sdb_GetAllVariables env (world s)) as [[rc variables] w1].
  cbv beta iota in H. state_simpl.
  destruct (negb (rc =? 0)); cbv beta iota in H.
  { inversion H; subst. lia. }
  set (s1 := add_event World (EvGetAllVariables rc) (set_world World w1 s)) in H.
  destruct (bind_variables World cfg variables s1) as [mem2 g2 c2 w2 t2 l2].
  state_simpl.
  destruct g2 as [m|]; cbv beta iota in H; [|discriminate H].
  state_simpl.
  destruct (engine_runStaticConstructorsDestructors env m false mem2 w2)
    as [[mem3 w3]|]; cbv beta iota in H; [|discriminate H].
  state_simpl. cbv beta iota in H.
  destruct (engine_runFunction env m _ mem3 w3) as [[[v mem4] w4]|];
    cbv beta iota in H; [|discriminate H].
  inversion H; subst. apply static_cast_int_range.
Qed.

(** An entry point that answers 2^32 has answered 0 as far as [Prepare]
    can tell: [Prepare] returns 0 and goes on to compile. *)
Lemma Prepare_casts_entry_point_answer :
  fst (Init unit (scripted sc_wide_answer) cfg_plain with_thunk) = Ret 0 /\
  fst (Prepare unit (scripted sc_wide_answer) cfg_plain constructed) = Ret 0 /\
  In (EvGetPointerToFunction sub_1000)
     (trace (snd (Prepare unit (scripted sc_wide_answer) cfg_plain
                    constructed))).
Proof.
  split; [vm_compute; reflexivity|]. split; [vm_compute; reflexivity|].
  vm_compute. tauto.
Qed.
